(** * micrometa.imagej: tile configurations and stitching macros for Fiji

    A shallow embedding of [src/main/resources/micrometa/imagej.py] and the
    properties its specification states about it.

    Python strings are byte strings ([string]), integers are [Z] or [nat]
    (lengths), floating point numbers are binary64 ([float]).  A call that
    may raise returns a [result]; the functions that touch the disk thread a
    [world] through a small state-and-exception monad. *)

From Stdlib Require Import String Ascii List ZArith Lia Bool.
From Stdlib Require Import DecimalString DecimalNat PrimFloat.
From Stdlib Require FloatOps SpecFloat.
From Stdlib Require DecimalN DecimalFacts.
From stdpp Require Import gmap strings.

Import ListNotations.
Local Open Scope string_scope.
#[local] Arguments String.append !_ _ : simpl nomatch.
Local Open Scope list_scope.

(** ** The Python runtime the module relies on *)

Module Py.

(** The exceptions that can leave the functions of this module.
    [Unmodelled] marks a use of the [%] operator that the module never
    makes and that the embedding does not cover. *)
Inductive exc : Set :=
  | IndexError | TypeError | ValueError | IOError | OSError | Unmodelled.

Inductive result (A : Type) : Type :=
  | Ok (a : A)
  | Raise (e : exc).
Arguments Ok {A} a.
Arguments Raise {A} e.

Definition rbind {A B} (r : result A) (k : A -> result B) : result B :=
  match r with
  | Ok a => k a
  | Raise e => Raise e
  end.

Definition is_ok {A} (r : result A) : bool :=
  match r with Ok _ => true | Raise _ => false end.

(** Characters that cannot be written inside a string literal. *)
Definition nl_char : ascii := "010"%char.
Definition dq_char : ascii := "034"%char.
Definition backslash : ascii := "092"%char.
Definition slash : ascii := "/"%char.
Definition nl : string := String nl_char "".
Definition dq : string := String dq_char "".

(** [len(s)] and the slices [s[n:]] and [s[:n]]. *)
Definition len (s : string) : nat := String.length s.

Fixpoint drop (n : nat) (s : string) : string :=
  match n, s with
  | O, _ => s
  | S n', String _ r => drop n' r
  | S _, EmptyString => EmptyString
  end.

Fixpoint take (n : nat) (s : string) : string :=
  match n, s with
  | O, _ => EmptyString
  | S n', String a r => String a (take n' r)
  | S _, EmptyString => EmptyString
  end.

(** [s.startswith(p)] and [s.endswith(p)]. *)
Definition startswith (s p : string) : bool := String.prefix p s.

Definition endswith (s p : string) : bool :=
  (len p <=? len s)%nat && String.eqb (drop (len s - len p) s) p.

(** [s.replace(c, by)] for a one-character pattern [c]. *)
Fixpoint replace (c : ascii) (by_ : string) (s : string) : string :=
  match s with
  | EmptyString => EmptyString
  | String a r =>
      if Ascii.eqb a c then by_ +:+ replace c by_ r
      else String a (replace c by_ r)
  end.

(** [s.lower()] on ASCII letters. *)
Definition lower_char (a : ascii) : ascii :=
  let n := nat_of_ascii a in
  if ((65 <=? n) && (n <=? 90))%nat then ascii_of_nat (n + 32) else a.

Fixpoint lower (s : string) : string :=
  match s with
  | EmptyString => EmptyString
  | String a r => String (lower_char a) (lower r)
  end.

(** Whether a character occurs in a string, and how often. *)
Fixpoint count_char (c : ascii) (s : string) : nat :=
  match s with
  | EmptyString => 0
  | String a r => (if Ascii.eqb a c then 1 else 0) + count_char c r
  end.

Definition has_char (c : ascii) (s : string) : bool :=
  negb (count_char c s =? 0)%nat.

(** [''.join(lines)], what [writelines] sends to the file. *)
Definition joinlines (lines : list string) : string := String.concat "" lines.

(** [str(n)] for a non-negative integer, counted in unary or in binary. *)
Definition str_nat (n : nat) : string :=
  NilEmpty.string_of_uint (Nat.to_uint n).

Definition str_N (n : N) : string :=
  NilEmpty.string_of_uint (N.to_uint n).

Definition repeat_char (c : ascii) (n : nat) : string :=
  string_of_list_ascii (List.repeat c n).

(** *** The [%] operator

    A format string is scanned once, left to right.  After a [%] come the
    [0] flag, a decimal width and the conversion character; each conversion
    takes the next argument.  Too few arguments, or arguments left over at
    the end, are a [TypeError]; an unknown conversion character is a
    [ValueError]; [%%] stands for a percent sign.  The flags [-], [+], [#],
    the space flag, a precision and a width on [%s], [%f] or [%%] are not
    covered: no format string of the module has them. *)

Inductive fstate : Set :=
  | Lit                                  (* copying literal text *)
  | Flags (zero : bool)                  (* after [%], reading flags *)
  | Width (zero : bool) (w : nat).       (* reading the width *)

Definition digit_of (c : ascii) : option nat :=
  let n := nat_of_ascii c in
  if ((48 <=? n) && (n <=? 57))%nat then Some (n - 48)%nat else None.

Section Format.
Context {A : Type}.
(** [conv zero width c v]: the text of argument [v] under conversion [c]. *)
Variable conv : bool -> nat -> ascii -> A -> result string.

Fixpoint fmt_go (st : fstate) (f : string) (args : list A) : result string :=
  match f with
  | EmptyString =>
      match st with
      | Lit => match args with [] => Ok "" | _ :: _ => Raise TypeError end
      | _ => Raise ValueError
      end
  | String c r =>
      let convert (zero : bool) (w : nat) :=
        if Ascii.eqb c "%" then
          if zero || negb (w =? 0)%nat then Raise Unmodelled
          else rbind (fmt_go Lit r args) (fun t => Ok ("%" +:+ t))
        else match args with
             | [] => Raise TypeError
             | v :: args' =>
                 rbind (conv zero w c v) (fun s =>
                 rbind (fmt_go Lit r args') (fun t => Ok (s +:+ t)))
             end in
      match st with
      | Lit =>
          if Ascii.eqb c "%" then fmt_go (Flags false) r args
          else rbind (fmt_go Lit r args) (fun t => Ok (String c t))
      | Flags zero =>
          if Ascii.eqb c "0" then fmt_go (Flags true) r args
          else match digit_of c with
               | Some d => fmt_go (Width zero d) r args
               | None => convert zero 0%nat
               end
      | Width zero w =>
          match digit_of c with
          | Some d => fmt_go (Width zero (10 * w + d)) r args
          | None => convert zero w
          end
      end
  end.

(** [f % args] *)
Definition fmt (f : string) (args : list A) : result string :=
  fmt_go Lit f args.
End Format.

(** Whether [c] is one of the conversion characters of Python. *)
Definition is_conversion (c : ascii) : bool :=
  has_char c "diouxXeEfFgGcrs".

Definition bad_conversion (c : ascii) : exc :=
  if is_conversion c then Unmodelled else ValueError.

(** [%s] with string arguments. *)
Definition conv_s (zero : bool) (w : nat) (c : ascii) (v : string) : result string :=
  if Ascii.eqb c "s" then
    if (w =? 0)%nat then Ok v else Raise Unmodelled
  else Raise (bad_conversion c).

(** [%i] and [%d] with integer arguments: the sign, then the digits, padded
    on the left up to the width, with zeros after the sign under the [0]
    flag and with spaces before it otherwise. *)
Definition fmt_int (zero : bool) (w : nat) (z : Z) : string :=
  let sign := if (z <? 0)%Z then "-" else "" in
  let digits := str_N (Z.abs_N z) in
  let pad := (w - (len sign + len digits))%nat in
  if zero then sign +:+ repeat_char "0" pad +:+ digits
  else repeat_char " " pad +:+ sign +:+ digits.

Definition conv_i (zero : bool) (w : nat) (c : ascii) (v : Z) : result string :=
  if Ascii.eqb c "i" || Ascii.eqb c "d" then Ok (fmt_int zero w v)
  else Raise (bad_conversion c).

(** [%f] with float arguments; [render] is the six-decimal rendering of a
    binary64 number done by the C library. *)
Definition conv_f (render : float -> string)
    (zero : bool) (w : nat) (c : ascii) (v : float) : result string :=
  if Ascii.eqb c "f" then
    if (w =? 0)%nat then Ok (render v) else Raise Unmodelled
  else Raise (bad_conversion c).

(** *** [os.path], POSIX flavour *)

(** [(p[:i], p[i:])] for [i = p.rfind('/') + 1]. *)
Fixpoint rsplit_slash (p : string) : string * string :=
  match p with
  | EmptyString => ("", "")
  | String c r =>
      let '(h, t) := rsplit_slash r in
      if (len h =? 0)%nat then
        if Ascii.eqb c slash then (String c "", t) else ("", String c t)
      else (String c h, t)
  end.

(** [s.rstrip('/')] *)
Fixpoint rstrip_slash (s : string) : string :=
  match s with
  | EmptyString => EmptyString
  | String c r =>
      let r' := rstrip_slash r in
      if (len r' =? 0)%nat && Ascii.eqb c slash then "" else String c r'
  end.

Definition dirname (p : string) : string :=
  let head := fst (rsplit_slash p) in
  if (len (rstrip_slash head) =? 0)%nat then head else rstrip_slash head.

Definition basename (p : string) : string := snd (rsplit_slash p).

Definition join (a b : string) : string :=
  if startswith b "/" then b
  else if (len a =? 0)%nat || endswith a "/" then a +:+ b
  else a +:+ "/" +:+ b.

(** [(t[:i], t[i:])] for [i = t.rfind('.')], or [(t, "")] when [t] has no
    dot. *)
Fixpoint rsplit_dot (t : string) : string * string :=
  match t with
  | EmptyString => ("", "")
  | String c r =>
      let '(a, b) := rsplit_dot r in
      if (len b =? 0)%nat then
        if Ascii.eqb c "." then ("", String c r) else (String c a, "")
      else (String c a, b)
  end.

(** The extension is split off at the last dot of the last component,
    unless only dots come before it in that component. *)
Definition splitext (p : string) : string * string :=
  let '(h, t) := rsplit_slash p in
  let '(a, b) := rsplit_dot t in
  if (len b =? 0)%nat || (count_char "." a =? len a)%nat then (p, "")
  else (h +:+ a, b).

(** *** [list.sort] on strings: byte-wise lexical order *)

Fixpoint insert_sorted (x : string) (l : list string) : list string :=
  match l with
  | [] => [x]
  | y :: l' => if String.leb x y then x :: l else y :: insert_sorted x l'
  end.

Definition sort (l : list string) : list string :=
  fold_right insert_sorted [] l.

(** [l[-1]] *)
Fixpoint last_item {A} (l : list A) : result A :=
  match l with
  | [] => Raise IndexError
  | [x] => Ok x
  | _ :: r => last_item r
  end.

(** [l[0]] *)
Definition first_item {A} (l : list A) : result A :=
  match l with
  | [] => Raise IndexError
  | x :: _ => Ok x
  end.

End Py.

Import Py.

Declare Scope result_scope.
Delimit Scope result_scope with result.
Notation "x <- e ;; k" := (rbind e (fun x => k))
  (at level 100, e at next level, right associativity) : result_scope.

(** ** The data model the module reads

    The mosaic and experiment classes belong to other modules of the
    package; these records hold the attributes [imagej.py] reads. *)

Record SubVolume : Type := {
  size_z : Z;                        (* get_dimensions()['Z'] *)
  position_relative : list float;    (* position['relative'], a tuple *)
  storage_full : string              (* storage['full'] *)
}.

Record MosaicData : Type := {
  subvol : list SubVolume;           (* subvol *)
  storage_path : string;             (* storage['path'] *)
  supplement_index : Z;              (* supplement['index'] *)
  overlap_pct : float                (* get_overlap('pct') *)
}.

(** An experiment is a sequence of mosaics: the module takes its length,
    iterates over it and reads item 0. *)
Record MosaicExperiment : Type := {
  infile_dname : string;             (* infile['dname'] *)
  mosaics : list MosaicData
}.

(** ** The disk, as the writing functions see it

    A file opened for writing is a file object with a buffer.  What is
    written goes to the buffer; the buffer goes to the disk when it holds
    more than [bufsize] bytes, and when the file is closed.  The device
    counts its room in bytes: of a text that does not fit, the bytes that
    fit reach the disk and the call raises [IOError]. *)

Record handle : Type := {
  hname : string;                    (* the path it was opened with *)
  pending : string                   (* written, not yet on the disk *)
}.

Record world : Type := {
  files : gmap string string;        (* path to content *)
  handles : list handle;             (* the open file objects, latest first *)
  free : nat;                        (* bytes left on the device *)
  bufsize : nat                      (* the size of a file object's buffer *)
}.

Definition io (A : Type) : Type := world -> world * result A.

Definition ret {A} (a : A) : io A := fun w => (w, Ok a).

Definition bind {A B} (m : io A) (k : A -> io B) : io B :=
  fun w =>
    match m w with
    | (w', Ok a) => k a w'
    | (w', Raise e) => (w', Raise e)
    end.

Definition lift {A} (r : result A) : io A := fun w => (w, r).

Declare Scope io_scope.
Delimit Scope io_scope with io.
Notation "x <- e ;; k" := (bind e (fun x => k))
  (at level 100, e at next level, right associativity) : io_scope.

(** A [for] loop whose body touches the disk. *)
Fixpoint for_each {A} (f : A -> io unit) (l : list A) : io unit :=
  match l with
  | [] => ret tt
  | a :: r => bind (f a) (fun _ => for_each f r)
  end.

(** A file object is found by its path; of two objects on one path the one
    opened last. *)
Fixpoint find_handle (h : string) (hs : list handle) : option string :=
  match hs with
  | [] => None
  | x :: r => if String.eqb (hname x) h then Some (pending x)
              else find_handle h r
  end.

Fixpoint set_pending (h data : string) (hs : list handle) : list handle :=
  match hs with
  | [] => []
  | x :: r => if String.eqb (hname x) h
              then {| hname := h; pending := data |} :: r
              else x :: set_pending h data r
  end.

Fixpoint remove_handle (h : string) (hs : list handle) : list handle :=
  match hs with
  | [] => []
  | x :: r => if String.eqb (hname x) h then r else x :: remove_handle h r
  end.

(** The buffer goes to the disk: the bytes that the device has room for
    are appended to the file and the others stay behind; [IOError] when
    some stay behind. *)
Definition flush (h : string) : io unit :=
  fun w =>
    match find_handle h (handles w) with
    | None => (w, Raise ValueError)
    | Some data =>
        let n := Nat.min (len data) (free w) in
        ({| files := <[h := default "" (files w !! h) +:+ take n data]> (files w);
            handles := set_pending h (drop n data) (handles w);
            free := free w - n;
            bufsize := bufsize w |},
         if (len data <=? free w)%nat then Ok tt else Raise IOError)
    end.

(** [f.write(s)]: the text joins the buffer, which is flushed when it has
    grown beyond its size. *)
Definition write (h s : string) : io unit :=
  fun w =>
    match find_handle h (handles w) with
    | None => (w, Raise ValueError)
    | Some data =>
        let w1 := {| files := files w;
                     handles := set_pending h (data +:+ s) (handles w);
                     free := free w;
                     bufsize := bufsize w |} in
        if (len (data +:+ s) <=? bufsize w)%nat then (w1, Ok tt)
        else flush h w1
    end.

(** [f.writelines(lines)]: every item is written, in order. *)
Definition writelines (h : string) (lines : list string) : io unit :=
  for_each (write h) lines.

(** [f.close()]: the buffer is flushed and the file is closed, also when
    the flush fails; the failure of the flush is then raised. *)
Definition close (h : string) : io unit :=
  fun w =>
    match find_handle h (handles w) with
    | None => (w, Ok tt)
    | Some _ =>
        let '(w1, r) := flush h w in
        ({| files := files w1;
            handles := remove_handle h (handles w1);
            free := free w1;
            bufsize := bufsize w1 |}, r)
    end.

Section Imagej.

(** What the module takes from its surroundings: the package version, the
    path of the module file, the helpers [pathtools.exists] and
    [iotools.readtxt] of the package, [os.listdir], whether [open(p, 'w')]
    succeeds, and the rendering of a float by [%f]. *)
Variable version : string.                               (* __version__ *)
Variable module_file : string.                           (* __file__ *)
Variable exists_ : string -> bool.                       (* exists *)
Variable listdir : string -> result (list string).       (* listdir *)
Variable readtxt : string -> string -> result (list string).  (* readtxt *)
Variable can_open : string -> bool.
Variable format_f : float -> string.

(** [__name__] *)
Definition module_name : string := "micrometa.imagej".

(** [open(name, 'w')]: the file is created, or emptied and its bytes
    given back to the device, and stays open with an empty buffer. *)
Definition open_w (name : string) : io string :=
  fun w =>
    if can_open name then
      ({| files := <[name := ""]> (files w);
          handles := {| hname := name; pending := "" |} :: handles w;
          free := free w + len (default "" (files w !! name));
          bufsize := bufsize w |}, Ok name)
    else (w, Raise IOError).

(** [with open(name, 'w') as out: body]: the file is closed when the body
    is left, also by an exception; an exception of the closing is the one
    that leaves the statement. *)
Definition with_open {A} (name : string) (body : string -> io A) : io A :=
  fun w =>
    match open_w name w with
    | (w1, Ok out) =>
        let '(w2, r) := body out w1 in
        match close out w2 with
        | (w3, Ok _) => (w3, r)
        | (w3, Raise e) => (w3, Raise e)
        end
    | (w1, Raise e) => (w1, Raise e)
    end.

Local Open Scope result_scope.

Fixpoint mapM {A B} (f : A -> result B) (l : list A) : result (list B) :=
  match l with
  | [] => Ok []
  | a :: r => b <- f a ;; bs <- mapM f r ;; Ok (b :: bs)
  end.

(** One pass of the loop of [gen_tile_config] (lines 51 to 58). *)
Definition tile_line (mosaic_ds : MosaicData) (coord_format : string)
    (vol : SubVolume) : result string :=
  let vol_fname := storage_full vol in
  let vol_fname :=
    if startswith vol_fname (storage_path mosaic_ds)
    then drop (len (storage_path mosaic_ds)) vol_fname
    else vol_fname in
  line <- fmt conv_s "%s; ; " [vol_fname] ;;
  let line := replace backslash "/" line in
  coords <- fmt (conv_f format_f) coord_format (position_relative vol) ;;
  Ok (line +:+ coords).

Definition gen_tile_config (mosaic_ds : MosaicData) : result (list string) :=
  let conf := [] in
  hdr <- fmt conv_s ("# Generated by %s (%s)." +:+ nl +:+ "#" +:+ nl)
           [module_name; version] ;;
  let conf := conf ++ [hdr] in
  vol0 <- first_item (subvol mosaic_ds) ;;
  let subvol_size_z := size_z vol0 in
  let subvol_position_dim := length (position_relative vol0) in
  let conf := conf ++ ["# Define the number of dimensions we are working on" +:+ nl] in
  let '(conf, coord_format) :=
    if (subvol_size_z >? 1)%Z then
      (conf ++ ["dim = 3" +:+ nl],
       if (subvol_position_dim <? 3)%nat then "(%f, %f, 0.0)" +:+ nl
       else "(%f, %f, %f)" +:+ nl)
    else (conf ++ ["dim = 2" +:+ nl], "(%f, %f)" +:+ nl) in
  let conf := conf ++ ["# Define the image coordinates (in pixels)" +:+ nl] in
  lines <- mapM (tile_line mosaic_ds coord_format) (subvol mosaic_ds) ;;
  Ok (conf ++ lines).

(** The file name computed by [write_tile_config] (lines 82 to 87). *)
Definition tile_config_fname (mosaic_ds : MosaicData) (outdir : string)
    (padlen : nat) : result string :=
  let fname := "mosaic_%0" +:+ str_nat padlen +:+ "i.txt" in
  fname <- fmt conv_i fname [supplement_index mosaic_ds] ;;
  if String.eqb outdir "" then Ok (join (storage_path mosaic_ds) fname)
  else Ok (join outdir fname).

Definition locate_templates (tplpath : string) : result string :=
  let tplpath :=
    if String.eqb tplpath "" then
      let tplpath := join (dirname module_file) "ijm_templates" in
      if negb (exists_ tplpath) then tplpath +:+ ".zip" else tplpath
    else tplpath in
  tplpath <-
    (if endswith (lower tplpath) ".jar" then
       let jar_dir := dirname tplpath in
       let jar_basename := basename (fst (splitext tplpath)) in
       entries <- listdir jar_dir ;;
       let candidates :=
         List.filter (fun candidate => startswith candidate jar_basename)
           entries in
       let candidates := sort candidates in
       best <- last_item candidates ;;
       Ok (join jar_dir best)
     else Ok tplpath) ;;
  if negb (exists_ tplpath) then Raise IOError else Ok tplpath.

Definition begin_head : string :=
  "// =================== BEGIN macro HEAD ===================" +:+ nl.
Definition end_head : string :=
  "// ==================== END macro HEAD ====================" +:+ nl.
Definition begin_body : string :=
  "// =================== BEGIN macro BODY ===================" +:+ nl.
Definition end_body : string :=
  "// ==================== END macro BODY ====================" +:+ nl.
Definition compute_false : string := "compute = false;" +:+ nl.

(** [opts] holds the items of the dictionary in the order [opts.items()]
    yields them, each value as the text [%s] gives it. *)
Definition gen_stitching_macro_code (experiment : MosaicExperiment)
    (pfx path tplpath : string) (opts : list (string * string))
    : result (list string) :=
  templates <- locate_templates tplpath ;;
  let ijm := [] in
  hdr <- fmt conv_s ("// Generated by %s (%s)." +:+ nl +:+ nl)
           [module_name; version] ;;
  let ijm := ijm ++ [hdr] in
  let ijm := ijm ++ [begin_head] in
  head <- readtxt (pfx +:+ "_head.ijm") templates ;;
  let ijm := ijm ++ head in
  let ijm := ijm ++ [end_head] in
  let ijm := ijm ++ [nl] in
  name <- fmt conv_s ("name = " +:+ dq +:+ "%s" +:+ dq +:+ ";" +:+ nl)
            [infile_dname experiment] ;;
  let ijm := ijm ++ [name] in
  let path := replace backslash "\\" path in
  input_dir <- fmt conv_s ("input_dir=" +:+ dq +:+ "%s" +:+ dq +:+ ";" +:+ nl)
                 [path] ;;
  let ijm := ijm ++ [input_dir] in
  let ijm := ijm ++ ["use_batch_mode = true;" +:+ nl] in
  assignments <-
    mapM (fun '(option, value) =>
            fmt conv_s ("%s = %s;" +:+ nl) [option; value]) opts ;;
  let ijm := ijm ++ assignments in
  mosaic0 <- first_item (mosaics experiment) ;;
  let ijm :=
    if (overlap_pct mosaic0 <? 5)%float then ijm ++ [compute_false]
    else ijm in
  let ijm := ijm ++ [nl] in
  let ijm := ijm ++ [begin_body] in
  body <- readtxt (pfx +:+ "_body.ijm") templates ;;
  let ijm := ijm ++ body in
  let ijm := ijm ++ [end_body] in
  Ok ijm.

Local Close Scope result_scope.
Local Open Scope io_scope.

(** [padlen] is a length, as [write_all_tile_configs] passes it. *)
Definition write_tile_config (mosaic_ds : MosaicData) (outdir : string)
    (padlen : nat) : io unit :=
  config <- lift (gen_tile_config mosaic_ds) ;;
  fname <- lift (tile_config_fname mosaic_ds outdir padlen) ;;
  out <- open_w fname ;;
  _ <- writelines out config ;;
  close out.

Definition write_all_tile_configs (experiment : MosaicExperiment)
    (outdir : string) : io unit :=
  let padlen := len (str_nat (length (mosaics experiment))) in
  for_each (fun mosaic_ds => write_tile_config mosaic_ds outdir padlen)
    (mosaics experiment).

Definition write_stitching_macro (code : list string) (fname dname : string)
    : io unit :=
  let fname := join dname fname in
  with_open fname (fun out => writelines out code).

End Imagej.

(** ** Sample data

    A rendering of [%f] for the examples: the exact value of the binary64
    number rounded half-to-even to six decimals, as the C library prints a
    finite number, and [inf] and [nan] for the others. *)

Definition round_half_even (num den : Z) : Z :=
  let q := (num / den)%Z in
  let r := (num mod den)%Z in
  if (2 * r <? den)%Z then q
  else if (den <? 2 * r)%Z then (q + 1)%Z
  else if Z.even q then q else (q + 1)%Z.

Definition fixed6 (n : N) : string :=
  let frac := str_N (n mod 1000000) in
  str_N (n / 1000000) +:+ "." +:+ repeat_char "0" (6 - len frac) +:+ frac.

Definition render_f (x : float) : string :=
  let sign (s : bool) := if s then "-" else "" in
  match FloatOps.Prim2SF x with
  | SpecFloat.S754_zero s => sign s +:+ "0.000000"
  | SpecFloat.S754_infinity s => sign s +:+ "inf"
  | SpecFloat.S754_nan => "nan"
  | SpecFloat.S754_finite s m e =>
      let scaled :=
        match e with
        | Zneg p => round_half_even (Zpos m * 1000000) (2 ^ Zpos p)
        | _ => (Zpos m * 1000000 * 2 ^ e)%Z
        end in
      sign s +:+ fixed6 (Z.to_N scaled)
  end.

Module Sample.

Definition tile (z : Z) (pos : list float) (full : string) : SubVolume :=
  {| size_z := z; position_relative := pos; storage_full := full |}.

Definition mosaic (vols : list SubVolume) (path : string) (index : Z)
    (ovl : float) : MosaicData :=
  {| subvol := vols; storage_path := path;
     supplement_index := index; overlap_pct := ovl |}.

(** A flat mosaic of two tiles, the second stored outside the mosaic's
    directory and named with backslashes. *)
Definition flat : MosaicData :=
  mosaic [tile 1 [0; 0]%float "/data/exp/t0.oib";
          tile 1 [460.5; 0]%float "D:\other\t1.oib"]
         "/data/exp/" 0 10%float.

(** A mosaic of stacks with planar positions. *)
Definition stack : MosaicData :=
  mosaic [tile 30 [0; 0]%float "/data/exp/s0.oib";
          tile 30 [0; 512]%float "/data/exp/s1.oib"]
         "/data/exp/" 1 2.5%float.

(** A mosaic of stacks with positions in space. *)
Definition cube : MosaicData :=
  mosaic [tile 30 [0; 0; 4]%float "/data/exp/c0.oib"] "/data/exp/" 2 10%float.

(** A flat mosaic whose positions have three components. *)
Definition flat_xyz : MosaicData :=
  mosaic [tile 1 [0; 0; 0]%float "/data/exp/t0.oib"] "/data/exp/" 0 10%float.

(** An experiment of [n] mosaics numbered from [0]. *)
Definition numbered (n : nat) : MosaicExperiment :=
  {| infile_dname := "exp";
     mosaics := map (fun i => mosaic [tile 1 [0; 0]%float "/data/exp/t0.oib"]
                                "/data/exp/" (Z.of_nat i) 10%float)
                    (seq 0 n) |}.

Definition experiment (ms : list MosaicData) : MosaicExperiment :=
  {| infile_dname := "exp"; mosaics := ms |}.

(** A plugin directory with two releases of the package. *)
Definition listdir (d : string) : result (list string) :=
  if String.eqb d "/plugins"
  then Ok ["foo-1.0.0.jar"; "other.jar"; "foo-1.2.0.jar"]
  else if String.eqb d "/empty" then Ok []
  else Raise OSError.

Definition exists_ (p : string) : bool :=
  String.eqb p "/plugins/foo-1.0.0.jar" || String.eqb p "/plugins/foo-1.2.0.jar"
  || String.eqb p "/plugins/other.jar" || String.eqb p "/tpl".

Definition readtxt (fname path : string) : result (list string) :=
  if String.eqb fname "stitch_head.ijm" then Ok ["hidden = false;" +:+ nl]
  else if String.eqb fname "stitch_body.ijm" then Ok ["run_stitching();" +:+ nl]
  else Raise IOError.

Definition module_file : string := "/opt/micrometa/imagej.py".
Definition version : string := "1.0".

(** A mosaic of [n] flat tiles, for a configuration of some length. *)
Definition grid (n : nat) : MosaicData :=
  mosaic (map (fun i => tile 1 [0; 0]%float
                          ("/data/exp/t" +:+ str_nat i +:+ ".oib"))
              (seq 0 n))
         "/data/exp/" 0 10%float.

(** An empty device with [room] bytes left, where a file object has a
    buffer of 8192 bytes. *)
Definition disk (room : nat) : world :=
  {| files := ∅; handles := []; free := room; bufsize := 8 * 1024 |}.

End Sample.


(** ** What the specification says, in terms of the embedding *)

Section Statements.

Variable version : string.
Variable format_f : float -> string.

(** The four lines before the coordinate lines of a tile configuration,
    [dim] being the declared number of dimensions. *)
Definition preamble (dim : string) : list string :=
  [ "# Generated by " +:+ module_name +:+ " (" +:+ version +:+ ")." +:+ nl
      +:+ "#" +:+ nl;
    "# Define the number of dimensions we are working on" +:+ nl;
    "dim = " +:+ dim +:+ nl;
    "# Define the image coordinates (in pixels)" +:+ nl ].

(** The path of a sub-volume as a coordinate line shows it. *)
Definition shown_path (mosaic_ds : MosaicData) (vol : SubVolume) : string :=
  replace backslash "/"
    (if startswith (storage_full vol) (storage_path mosaic_ds)
     then drop (len (storage_path mosaic_ds)) (storage_full vol)
     else storage_full vol).

(** A coordinate line: the path, the separator and the coordinates
    between parentheses, each coordinate given by its text. *)
Definition coordinate_line (path : string) (coords : list string) : string :=
  path +:+ "; ; (" +:+ String.concat ", " coords +:+ ")" +:+ nl.

(** A line with exactly two floating-point coordinates. *)
Definition two_floats (mosaic_ds : MosaicData) (vol : SubVolume)
    (line : string) : Prop :=
  exists x y, position_relative vol = [x; y] /\
    line = coordinate_line (shown_path mosaic_ds vol)
             [format_f x; format_f y].

(** A line whose third coordinate is the literal [0.0]. *)
Definition z_zero (mosaic_ds : MosaicData) (vol : SubVolume)
    (line : string) : Prop :=
  exists x y, position_relative vol = [x; y] /\
    line = coordinate_line (shown_path mosaic_ds vol)
             [format_f x; format_f y; "0.0"].

(** A line with three floating-point coordinates. *)
Definition three_floats (mosaic_ds : MosaicData) (vol : SubVolume)
    (line : string) : Prop :=
  exists x y z, position_relative vol = [x; y; z] /\
    line = coordinate_line (shown_path mosaic_ds vol)
             [format_f x; format_f y; format_f z].

(** A line whose path is the full path of the sub-volume without the
    mosaic's storage path when the full path starts with it, and the whole
    full path, at its full length, when it does not; with forward slashes
    for backslashes in both cases. *)
Definition relative_path_line (mosaic_ds : MosaicData) (vol : SubVolume)
    (line : string) : Prop :=
  exists path coords,
    line = coordinate_line path coords /\
    (startswith (storage_full vol) (storage_path mosaic_ds) = true ->
     path = replace backslash "/"
              (drop (len (storage_path mosaic_ds)) (storage_full vol))) /\
    (startswith (storage_full vol) (storage_path mosaic_ds) = false ->
     path = replace backslash "/" (storage_full vol) /\
     len path = len (storage_full vol)).

(** A line whose path is the shown path of the sub-volume and holds no
    backslash. *)
Definition forward_slash_line (mosaic_ds : MosaicData) (vol : SubVolume)
    (line : string) : Prop :=
  exists path coords,
    line = coordinate_line path coords /\
    path = shown_path mosaic_ds vol /\
    count_char backslash path = 0%nat.

(** What lines 39 to 47 choose from the first sub-volume [vol0]: the
    declared number of dimensions, the format of the coordinates, the
    number of components that format takes, and whether it ends in the
    literal [0.0]. *)
Definition declared_dim (vol0 : SubVolume) : string :=
  if (size_z vol0 >? 1)%Z then "3" else "2".

Definition coord_format (vol0 : SubVolume) : string :=
  if (size_z vol0 >? 1)%Z then
    if (length (position_relative vol0) <? 3)%nat then "(%f, %f, 0.0)" +:+ nl
    else "(%f, %f, %f)" +:+ nl
  else "(%f, %f)" +:+ nl.

Definition coord_arity (vol0 : SubVolume) : nat :=
  if (size_z vol0 >? 1)%Z then
    if (length (position_relative vol0) <? 3)%nat then 2 else 3
  else 2.

Definition pads_z (vol0 : SubVolume) : bool :=
  (size_z vol0 >? 1)%Z && (length (position_relative vol0) <? 3)%nat.

(** The coordinates of [vol] as its line shows them. *)
Definition coord_texts (vol0 vol : SubVolume) : list string :=
  map format_f (position_relative vol)
    ++ (if pads_z vol0 then ["0.0"] else []).

End Statements.

(** The lines the macro generator writes. *)

Section MacroStatements.

Variable version : string.

(** The lines the generator writes itself. *)
Definition macro_header : string :=
  "// Generated by " +:+ module_name +:+ " (" +:+ version +:+ ")." +:+ nl +:+ nl.

Definition name_line (dname : string) : string :=
  "name = " +:+ dq +:+ dname +:+ dq +:+ ";" +:+ nl.

(** The input path, each backslash doubled. *)
Definition input_dir_line (path : string) : string :=
  "input_dir=" +:+ dq +:+ replace backslash "\\" path +:+ dq +:+ ";" +:+ nl.

Definition batch_line : string := "use_batch_mode = true;" +:+ nl.

Definition assignment (opt : string * string) : string :=
  fst opt +:+ " = " +:+ snd opt +:+ ";" +:+ nl.

(** The macro up to the place of the [compute] line, and after it. *)
Definition macro_before (dname path : string) (opts : list (string * string))
    (head : list string) : list string :=
  [macro_header; begin_head] ++ head ++ [end_head; nl]
    ++ [name_line dname] ++ [input_dir_line path] ++ [batch_line]
    ++ map assignment opts.

Definition macro_after (body : list string) : list string :=
  [nl; begin_body] ++ body ++ [end_body].

End MacroStatements.

(** The files the writers write. *)

Section WritingStatements.

Variable version : string.
Variable format_f : float -> string.

(** The path [write_tile_config] writes to: in [outdir], or in the
    mosaic's directory when [outdir] is empty, the name [mosaic_] followed
    by the index zero-padded to [padlen] characters and by [.txt]. *)
Definition tile_config_name (padlen : nat) (outdir : string)
    (m : MosaicData) : string :=
  join (if String.eqb outdir "" then storage_path m else outdir)
    ("mosaic_" +:+ fmt_int true padlen (supplement_index m) +:+ ".txt").

(** The text of a mosaic's configuration. *)
Definition config_text (m : MosaicData) : string :=
  match gen_tile_config version format_f m with
  | Ok config => joinlines config
  | Raise _ => ""
  end.

Definition total_bytes (l : list MosaicData) : nat :=
  list_sum (map (fun m => len (config_text m)) l).

(** The padding length [write_all_tile_configs] computes: the number of
    digits of the mosaic count. *)
Definition padlen_of (experiment : MosaicExperiment) : nat :=
  len (str_nat (length (mosaics experiment))).

(** The largest index of an experiment with indices from 0 upwards, and
    the number of its digits. *)
Definition largest_index (experiment : MosaicExperiment) : Z :=
  fold_right Z.max 0%Z (map supplement_index (mosaics experiment)).

Definition largest_index_width (experiment : MosaicExperiment) : nat :=
  len (str_N (Z.abs_N (largest_index experiment))).

(** Whether the configuration of [m] can be generated and its file
    opened. *)
Definition writable (can_open : string -> bool) (padlen : nat)
    (outdir : string) (m : MosaicData) : bool :=
  is_ok (gen_tile_config version format_f m)
  && can_open (tile_config_name padlen outdir m).

End WritingStatements.

(** The candidates for a jar path: the entries of its directory that
    start with its base name. *)
Definition jar_candidates (tplpath : string) (entries : list string)
    : list string :=
  List.filter (fun candidate =>
                 startswith candidate (basename (fst (splitext tplpath))))
    entries.

(** Every item is below all the items after it. *)
Fixpoint ascending (l : list string) : Prop :=
  match l with
  | [] => True
  | a :: r => (forall c, In c r -> String.leb a c = true) /\ ascending r
  end.

(** ** Statements about the rest of the behaviour *)

(** [int(s)] on the texts [%i] produces: an optional sign and digits. *)
Definition read_int (s : string) : option Z :=
  option_map Z.of_int (NilEmpty.int_of_string s).

(** The directory [write_tile_config] writes to. *)
Definition target_dir (outdir : string) (m : MosaicData) : string :=
  if String.eqb outdir "" then storage_path m else outdir.

(** Digits that start with a digit other than 0: a number in decimal has
    no leading zero, unless it is zero. *)
Definition leading_nonzero (d : Decimal.uint) : Prop :=
  match d with
  | Decimal.Nil | Decimal.D0 _ => False
  | _ => True
  end.

(** ** Strings and lists *)

Lemma app_assoc_s (s t u : string) : (s +:+ t) +:+ u = s +:+ t +:+ u.
Proof. induction s as [|c s IH]; cbn; [reflexivity | now f_equal]. Qed.

Lemma len_app (s t : string) : len (s +:+ t) = (len s + len t)%nat.
Proof.
  unfold len. induction s as [|c s IH]; simpl; [reflexivity | now rewrite IH].
Qed.

Lemma drop_app_plus (a b : string) (k : nat) :
  drop (len a + k) (a +:+ b) = drop k b.
Proof. induction a as [|c a IH]; simpl; [reflexivity | exact IH]. Qed.

Lemma app_nil_r_s (s : string) : s +:+ "" = s.
Proof. induction s as [|c s IH]; cbn; [reflexivity | now f_equal]. Qed.

Lemma joinlines_cons (a : string) (l : list string) :
  joinlines (a :: l) = a +:+ joinlines l.
Proof.
  unfold joinlines. destruct l; cbn [String.concat]; [| reflexivity].
  now rewrite app_nil_r_s.
Qed.

(** Slices: [s[:n]] and [s[n:]]. *)
Lemma take_all (n : nat) (s : string) : len s <= n -> take n s = s.
Proof.
  revert n. unfold len.
  induction s as [|c s IH]; intros [|n] H; cbn in *; try reflexivity; try lia.
  f_equal. apply IH. lia.
Qed.

Lemma drop_all (n : nat) (s : string) : len s <= n -> drop n s = "".
Proof.
  revert n. unfold len.
  induction s as [|c s IH]; intros [|n] H; cbn in *; try reflexivity; try lia.
  apply IH. lia.
Qed.

Lemma len_drop (n : nat) (s : string) : len (drop n s) = len s - n.
Proof.
  revert n. unfold len.
  induction s as [|c s IH]; intros [|n]; cbn; try reflexivity. apply IH.
Qed.

Lemma take_app_plus (a b : string) (k : nat) :
  take (len a + k) (a +:+ b) = a +:+ take k b.
Proof. induction a as [|c a IH]; simpl; [reflexivity | now rewrite IH]. Qed.

Lemma take_app_le (a b : string) (n : nat) :
  n <= len a -> take n (a +:+ b) = take n a.
Proof.
  revert n. unfold len.
  induction a as [|c a IH]; intros [|n] H; cbn in *; try reflexivity; try lia.
  f_equal. apply IH. lia.
Qed.

Lemma take_drop_plus (k j : nat) (s : string) :
  take k s +:+ take j (drop k s) = take (k + j) s.
Proof.
  revert k. induction s as [|c s IH]; intros [|k]; cbn; try reflexivity.
  - destruct j; reflexivity.
  - now rewrite IH.
Qed.

Lemma take_drop (k : nat) (s : string) : take k s +:+ drop k s = s.
Proof.
  revert k. induction s as [|c s IH]; intros [|k]; cbn; try reflexivity.
  now rewrite IH.
Qed.

Lemma count_char_app (c : ascii) (s t : string) :
  count_char c (s +:+ t) = (count_char c s + count_char c t)%nat.
Proof. induction s as [|a s IH]; simpl; [reflexivity | rewrite IH; lia]. Qed.

Lemma replace_app (c : ascii) (b s t : string) :
  replace c b (s +:+ t) = replace c b s +:+ replace c b t.
Proof.
  induction s as [|a s IH]; simpl; [reflexivity |].
  destruct (Ascii.eqb a c); rewrite IH; [now rewrite app_assoc_s | reflexivity].
Qed.

(** Replacing a character by another one removes every occurrence of it
    and keeps the length. *)
Lemma replace_char_gone (c d : ascii) (s : string) :
  c <> d -> count_char c (replace c (String d "") s) = 0%nat.
Proof.
  intros Hcd. induction s as [|a s IH]; simpl; [reflexivity |].
  destruct (Ascii.eqb a c) eqn:E; simpl.
  - destruct (Ascii.eqb d c) eqn:E'; [apply Ascii.eqb_eq in E'; congruence | exact IH].
  - rewrite E. exact IH.
Qed.

Lemma replace_char_len (c d : ascii) (s : string) :
  len (replace c (String d "") s) = len s.
Proof.
  unfold len. induction s as [|a s IH]; simpl; [reflexivity |].
  destruct (Ascii.eqb a c); simpl; now rewrite IH.
Qed.

(** Doubling a character doubles its count. *)
Lemma replace_double_count (c : ascii) (s : string) :
  count_char c (replace c (String c (String c "")) s) = (2 * count_char c s)%nat.
Proof.
  induction s as [|a s IH]; simpl; [reflexivity |].
  destruct (Ascii.eqb a c) eqn:E; simpl.
  - rewrite Ascii.eqb_refl, IH. lia.
  - rewrite E, IH. lia.
Qed.

(** Doubling a character keeps the count of every other one. *)
Lemma replace_double_other (c d : ascii) (s : string) :
  d <> c ->
  count_char d (replace c (String c (String c "")) s) = count_char d s.
Proof.
  intros Hdc. induction s as [|a s IH]; simpl; [reflexivity |].
  destruct (Ascii.eqb a c) eqn:E; simpl.
  - apply Ascii.eqb_eq in E. subst a.
    destruct (Ascii.eqb c d) eqn:E'; [apply Ascii.eqb_eq in E'; congruence |].
    exact IH.
  - now rewrite IH.
Qed.

Lemma mapM_cases {A B} (f : A -> result B) (l : list A) :
  (exists bs, mapM f l = Ok bs /\ Forall2 (fun a b => f a = Ok b) l bs) \/
  (exists e, mapM f l = Raise e /\ Exists (fun a => f a = Raise e) l).
Proof.
  induction l as [|a l IH]; simpl.
  - left. exists []. split; [reflexivity | constructor].
  - destruct (f a) as [b|e] eqn:Ea; simpl.
    + destruct IH as [(bs & Hbs & Hall) | (e & He & Hex)].
      * left. exists (b :: bs). rewrite Hbs. split; [reflexivity |].
        constructor; assumption.
      * right. exists e. rewrite He. split; [reflexivity |].
        apply Exists_cons_tl. exact Hex.
    + right. exists e. split; [reflexivity |]. apply Exists_cons_hd. exact Ea.
Qed.

Lemma mapM_total {A B} (f : A -> result B) (g : A -> B) (l : list A) :
  (forall a, f a = Ok (g a)) -> mapM f l = Ok (map g l).
Proof.
  intros H. induction l as [|a l IH]; simpl; [reflexivity |].
  now rewrite H, IH.
Qed.

(** ** Tile configurations *)

Section TileConfig.

Variable version : string.
Variable format_f : float -> string.

Lemma gen_tile_config_empty (m : MosaicData) :
  subvol m = [] -> gen_tile_config version format_f m = Raise IndexError.
Proof. intros H. unfold gen_tile_config. rewrite H. reflexivity. Qed.

(** The configuration is the preamble followed by one line per
    sub-volume, and the only failure is that of a line. *)
Lemma gen_tile_config_cases (m : MosaicData) (vol0 : SubVolume) rest :
  subvol m = vol0 :: rest ->
  (exists lines,
      gen_tile_config version format_f m
        = Ok (preamble version (declared_dim vol0) ++ lines) /\
      Forall2 (fun vol line =>
                 tile_line format_f m (coord_format vol0) vol = Ok line)
        (subvol m) lines) \/
  (exists e,
      gen_tile_config version format_f m = Raise e /\
      Exists (fun vol => tile_line format_f m (coord_format vol0) vol = Raise e)
        (subvol m)).
Proof.
  intros H. unfold gen_tile_config, coord_format, declared_dim.
  rewrite H. cbn [first_item rbind fmt]. rewrite <- H.
  destruct (size_z vol0 >? 1)%Z;
    [destruct (length (position_relative vol0) <? 3)%nat |].
  all: match goal with
       | |- context [mapM ?f ?l] =>
           destruct (mapM_cases f l) as [(ls & -> & Hall) | (e & -> & Hex)]
       end;
    [left; exists ls; split; [reflexivity | exact Hall]
    | right; exists e; split; [reflexivity | exact Hex]].
Qed.

(** The three formats of the coordinates, applied to a position. *)
Lemma fmt_two_floats (pos : list float) :
  fmt (conv_f format_f) ("(%f, %f)" +:+ nl) pos =
    match pos with
    | [x; y] => Ok ("(" +:+ format_f x +:+ ", " +:+ format_f y +:+ ")" +:+ nl)
    | _ => Raise TypeError
    end.
Proof. destruct pos as [|x [|y [|z r]]]; reflexivity. Qed.

Lemma fmt_z_zero (pos : list float) :
  fmt (conv_f format_f) ("(%f, %f, 0.0)" +:+ nl) pos =
    match pos with
    | [x; y] =>
        Ok ("(" +:+ format_f x +:+ ", " +:+ format_f y +:+ ", 0.0)" +:+ nl)
    | _ => Raise TypeError
    end.
Proof. destruct pos as [|x [|y [|z r]]]; reflexivity. Qed.

Lemma fmt_three_floats (pos : list float) :
  fmt (conv_f format_f) ("(%f, %f, %f)" +:+ nl) pos =
    match pos with
    | [x; y; z] =>
        Ok ("(" +:+ format_f x +:+ ", " +:+ format_f y +:+ ", "
              +:+ format_f z +:+ ")" +:+ nl)
    | _ => Raise TypeError
    end.
Proof. destruct pos as [|x [|y [|z [|t r]]]]; reflexivity. Qed.

(** One line: it is produced exactly when the position has as many
    components as the chosen format takes. *)
Lemma tile_line_spec (m : MosaicData) (vol0 vol : SubVolume) :
  tile_line format_f m (coord_format vol0) vol =
    if (length (position_relative vol) =? coord_arity vol0)%nat
    then Ok (coordinate_line (shown_path m vol) (coord_texts format_f vol0 vol))
    else Raise TypeError.
Proof.
  unfold tile_line, coord_format, coord_arity, coord_texts, pads_z,
    coordinate_line, shown_path.
  set (name := if startswith _ _ then _ else _).
  change (fmt conv_s "%s; ; " [name]) with (Ok (name +:+ "; ; ")).
  cbn [rbind]. rewrite replace_app.
  change (replace backslash "/" "; ; ") with "; ; ".
  destruct (size_z vol0 >? 1)%Z;
    [destruct (length (position_relative vol0) <? 3)%nat |];
    cbn [andb];
    rewrite ?fmt_two_floats, ?fmt_z_zero, ?fmt_three_floats;
    destruct (position_relative vol) as [|x [|y [|z [|t r]]]];
    try reflexivity;
    cbn [rbind length Nat.eqb map app String.concat];
    rewrite !app_assoc_s; reflexivity.
Qed.

(** The whole result: the preamble and the coordinate lines when every
    position fits the format, a [TypeError] when one does not. *)
Lemma gen_tile_config_lines (m : MosaicData) (vol0 : SubVolume) rest :
  subvol m = vol0 :: rest ->
  match gen_tile_config version format_f m with
  | Ok conf =>
      exists lines,
        conf = preamble version (declared_dim vol0) ++ lines /\
        Forall2 (fun vol line =>
                   length (position_relative vol) = coord_arity vol0 /\
                   line = coordinate_line (shown_path m vol)
                            (coord_texts format_f vol0 vol))
          (subvol m) lines
  | Raise e =>
      e = TypeError /\
      Exists (fun vol => length (position_relative vol) <> coord_arity vol0)
        (subvol m)
  end.
Proof.
  intros H.
  destruct (gen_tile_config_cases m vol0 rest H)
    as [(lines & -> & Hall) | (e & -> & Hex)].
  - exists lines. split; [reflexivity |].
    eapply Forall2_impl; [exact Hall |].
    intros vol line Hl. cbv beta in Hl. rewrite tile_line_spec in Hl.
    destruct (Nat.eqb_spec (length (position_relative vol)) (coord_arity vol0));
      [| discriminate].
    split; [assumption | congruence].
  - apply Exists_exists in Hex. destruct Hex as (vol & Hin & Hl).
    rewrite tile_line_spec in Hl.
    destruct (Nat.eqb_spec (length (position_relative vol)) (coord_arity vol0));
      [discriminate |].
    split; [congruence |]. apply Exists_exists. exists vol. split; assumption.
Qed.

(** It returns whenever every position has the expected number of
    components. *)
Lemma gen_tile_config_returns (m : MosaicData) (vol0 : SubVolume) rest :
  subvol m = vol0 :: rest ->
  Forall (fun vol => length (position_relative vol) = coord_arity vol0)
    (subvol m) ->
  exists conf, gen_tile_config version format_f m = Ok conf.
Proof.
  intros H Hall. pose proof (gen_tile_config_lines m vol0 rest H) as Hc.
  destruct (gen_tile_config version format_f m) as [conf | e];
    [exists conf; reflexivity |].
  destruct Hc as [_ Hex]. apply Exists_exists in Hex.
  destruct Hex as (vol & Hin & Hne).
  rewrite Forall_forall in Hall. elim Hne. apply Hall. exact Hin.
Qed.

(** C1. For a mosaic whose first sub-volume has a z-dimension of at most
    1 the configuration declares [dim = 2] and every coordinate line has
    exactly two floating-point coordinates; for a z-dimension above 1 it
    declares [dim = 3] and every coordinate line has three coordinates
    (the third a float, or the literal [0.0]).  The only failure is the
    [TypeError] of a position whose number of components does not fit
    the format. *)
Theorem gen_tile_config_dimensions
    (m : MosaicData) (vol0 : SubVolume) (rest : list SubVolume) :
  subvol m = vol0 :: rest ->
  match gen_tile_config version format_f m with
  | Ok conf =>
      ((size_z vol0 <= 1)%Z ->
         exists lines,
           conf = preamble version "2" ++ lines /\
           Forall2 (two_floats format_f m) (subvol m) lines) /\
      ((1 < size_z vol0)%Z ->
         exists lines,
           conf = preamble version "3" ++ lines /\
           Forall2 (fun vol line => z_zero format_f m vol line \/
                                    three_floats format_f m vol line)
             (subvol m) lines)
  | Raise e =>
      e = TypeError /\
      Exists (fun vol => length (position_relative vol) <> coord_arity vol0)
        (subvol m)
  end.
Proof.
  intros H. pose proof (gen_tile_config_lines m vol0 rest H) as Hc.
  destruct (gen_tile_config version format_f m) as [conf | e]; [| exact Hc].
  destruct Hc as (lines & -> & Hall).
  unfold declared_dim, coord_arity, coord_texts, pads_z in *.
  split; intros Hz.
  - assert ((size_z vol0 >? 1)%Z = false) as E by lia. rewrite E in *.
    exists lines. split; [reflexivity |].
    eapply Forall2_impl; [exact Hall |].
    intros vol line [Hlen ->]. cbn [andb] in *.
    destruct (position_relative vol) as [|x [|y [|z r]]] eqn:Ep;
      try discriminate Hlen.
    exists x, y. rewrite Ep, app_nil_r. split; reflexivity.
  - assert ((size_z vol0 >? 1)%Z = true) as E by lia. rewrite E in *.
    exists lines. split; [reflexivity |].
    destruct (length (position_relative vol0) <? 3)%nat;
      cbn [andb] in Hall;
      (eapply Forall2_impl; [exact Hall |]); intros vol line [Hlen ->].
    + left. destruct (position_relative vol) as [|x [|y [|z r]]] eqn:Ep;
        try discriminate Hlen.
      exists x, y. rewrite Ep. split; reflexivity.
    + right. destruct (position_relative vol) as [|x [|y [|z [|t r]]]] eqn:Ep;
        try discriminate Hlen.
      exists x, y, z. rewrite Ep, app_nil_r. split; reflexivity.
Qed.

(** C2. For a mosaic declared 3-D (the first sub-volume has a z-dimension
    above 1) whose relative position has fewer than three components,
    every coordinate line ends in the z-coordinate [0.0]; the only failure
    is the [TypeError] of a position that does not have two components. *)
Theorem gen_tile_config_z_zero
    (m : MosaicData) (vol0 : SubVolume) (rest : list SubVolume) :
  subvol m = vol0 :: rest ->
  (1 < size_z vol0)%Z ->
  (length (position_relative vol0) < 3)%nat ->
  match gen_tile_config version format_f m with
  | Ok conf =>
      exists lines,
        conf = preamble version "3" ++ lines /\
        Forall2 (z_zero format_f m) (subvol m) lines
  | Raise e =>
      e = TypeError /\
      Exists (fun vol => length (position_relative vol) <> 2%nat) (subvol m)
  end.
Proof.
  intros H Hz Hdim. pose proof (gen_tile_config_lines m vol0 rest H) as Hc.
  assert ((size_z vol0 >? 1)%Z = true) as E by lia.
  assert ((length (position_relative vol0) <? 3)%nat = true) as E'
    by (apply Nat.ltb_lt; exact Hdim).
  unfold declared_dim, coord_arity, coord_texts, pads_z in Hc.
  rewrite E, E' in Hc. cbn [andb] in Hc.
  destruct (gen_tile_config version format_f m) as [conf | e]; [| exact Hc].
  destruct Hc as (lines & -> & Hall).
  exists lines. split; [reflexivity |].
  eapply Forall2_impl; [exact Hall |].
  intros vol line [Hlen ->].
  destruct (position_relative vol) as [|x [|y [|z r]]] eqn:Ep;
    try discriminate Hlen.
  exists x, y. rewrite Ep. split; reflexivity.
Qed.

(** C10. The path shown on a coordinate line is the sub-volume's full
    path without the mosaic's storage path when the full path starts with
    it, and the whole full path, as long as it was, when it does not; in
    both cases with forward slashes for backslashes. *)
Theorem gen_tile_config_relative_path
    (m : MosaicData) (vol0 : SubVolume) (rest : list SubVolume) :
  subvol m = vol0 :: rest ->
  match gen_tile_config version format_f m with
  | Ok conf =>
      exists lines,
        conf = preamble version (declared_dim vol0) ++ lines /\
        Forall2 (relative_path_line m) (subvol m) lines
  | Raise e =>
      e = TypeError /\
      Exists (fun vol => length (position_relative vol) <> coord_arity vol0)
        (subvol m)
  end.
Proof.
  intros H. pose proof (gen_tile_config_lines m vol0 rest H) as Hc.
  destruct (gen_tile_config version format_f m) as [conf | e]; [| exact Hc].
  destruct Hc as (lines & -> & Hall).
  exists lines. split; [reflexivity |].
  eapply Forall2_impl; [exact Hall |].
  intros vol line [_ ->].
  exists (shown_path m vol), (coord_texts format_f vol0 vol).
  split; [reflexivity |]. unfold shown_path.
  split; intros ->; [reflexivity |].
  split; [reflexivity | apply replace_char_len].
Qed.

End TileConfig.

(** ** Locating the templates *)

Lemma len_lower (s : string) : len (lower s) = len s.
Proof. unfold len. induction s as [|a s IH]; simpl; [reflexivity | now rewrite IH]. Qed.

Lemma drop_lower (n : nat) (s : string) : drop n (lower s) = lower (drop n s).
Proof.
  revert s. induction n as [|n IH]; intros s; [reflexivity |].
  destruct s as [|a s]; simpl; [reflexivity | apply IH].
Qed.

(** [s.lower()] ends with the lower-case suffix when [s] ends with the
    suffix. *)
Lemma endswith_lower (s p : string) :
  endswith s p = true -> endswith (lower s) (lower p) = true.
Proof.
  unfold endswith. rewrite !len_lower, drop_lower.
  intros H. apply andb_true_iff in H. destruct H as [Hlen Heq].
  apply String.eqb_eq in Heq. rewrite Hlen, Heq. simpl. apply String.eqb_refl.
Qed.

Lemma leb_refl (s : string) : String.leb s s = true.
Proof. destruct (String.leb_total s s); assumption. Qed.

Lemma leb_trans (s t u : string) :
  String.leb s t = true -> String.leb t u = true -> String.leb s u = true.
Proof.
  intros H1 H2. apply Is_true_true.
  change (String.le s u). transitivity t; apply Is_true_true; assumption.
Qed.

Lemma leb_false_flip (s t : string) :
  String.leb s t = false -> String.leb t s = true.
Proof. intros H. destruct (String.leb_total s t); congruence. Qed.

Lemma insert_sorted_In (x y : string) (l : list string) :
  In y (insert_sorted x l) <-> y = x \/ In y l.
Proof.
  induction l as [|a l IH]; simpl; [intuition |].
  destruct (String.leb x a); simpl; [intuition |]. rewrite IH. intuition.
Qed.

Lemma sort_In (y : string) (l : list string) : In y (sort l) <-> In y l.
Proof.
  induction l as [|a l IH]; simpl; [reflexivity |].
  rewrite insert_sorted_In, IH. intuition.
Qed.


Lemma insert_sorted_ascending (x : string) (l : list string) :
  ascending l -> ascending (insert_sorted x l).
Proof.
  induction l as [|a l IH]; simpl; [intuition |].
  intros [Ha Hl]. destruct (String.leb x a) eqn:E; simpl.
  - repeat split; try assumption.
    intros c [<- | Hc]; [exact E | eapply leb_trans; eauto].
  - split; [| apply IH; exact Hl].
    intros c Hc. apply insert_sorted_In in Hc.
    destruct Hc as [-> | Hc]; [apply leb_false_flip; exact E | apply Ha; exact Hc].
Qed.

Lemma sort_ascending (l : list string) : ascending (sort l).
Proof.
  induction l as [|a l IH]; simpl; [exact I | apply insert_sorted_ascending, IH].
Qed.

Lemma last_item_ascending (l : list string) :
  l <> [] -> ascending l ->
  exists best, last_item l = Ok best /\ In best l /\
    forall c, In c l -> String.leb c best = true.
Proof.
  induction l as [|a l IH]; [congruence |]. intros _ [Ha Hl].
  destruct l as [|b l].
  - exists a. simpl. repeat split; [now left |].
    intros c [<- | []]. apply leb_refl.
  - destruct IH as (best & Hlast & Hin & Hmax); [discriminate | exact Hl |].
    exists best. split; [exact Hlast |]. split; [now right |].
    intros c [<- | Hc]; [apply Ha; exact Hin | apply Hmax; exact Hc].
Qed.

(** After [l.sort()], [l[-1]] is the lexically last item of a list that is
    not empty. *)
Lemma last_item_sort (l : list string) :
  l <> [] ->
  exists best, last_item (sort l) = Ok best /\ In best l /\
    forall c, In c l -> String.leb c best = true.
Proof.
  intros Hne.
  destruct (last_item_ascending (sort l)) as (best & Hlast & Hin & Hmax).
  - intros E. destruct l as [|a l]; [congruence |].
    assert (In a (sort (a :: l))) as Ha by (apply sort_In; now left).
    rewrite E in Ha. exact Ha.
  - apply sort_ascending.
  - exists best. split; [exact Hlast |]. split; [apply sort_In; exact Hin |].
    intros c Hc. apply Hmax, sort_In, Hc.
Qed.

Section Templates.

Variable module_file : string.
Variable exists_ : string -> bool.
Variable listdir : string -> result (list string).


(** What [locate_templates] does with a path ending in [.jar], in any
    letter case. *)
Lemma locate_templates_jar (tplpath : string) :
  endswith (lower tplpath) ".jar" = true ->
  locate_templates module_file exists_ listdir tplpath =
    rbind (listdir (dirname tplpath)) (fun entries =>
    rbind (last_item (sort (jar_candidates tplpath entries))) (fun best =>
    if exists_ (join (dirname tplpath) best)
    then Ok (join (dirname tplpath) best) else Raise IOError)).
Proof.
  intros Hjar. unfold locate_templates, jar_candidates.
  destruct (String.eqb_spec tplpath "") as [-> | _]; [discriminate Hjar |].
  cbv beta iota zeta. rewrite Hjar.
  destruct (listdir (dirname tplpath)) as [entries | e]; [| reflexivity].
  cbn [rbind].
  destruct (last_item _) as [best | e]; [| reflexivity].
  cbn [rbind]. destruct (exists_ _); reflexivity.
Qed.

(** C4. Given a path ending in [.jar] whose directory holds at least one
    name starting with the jar's base name, [locate_templates] returns the
    path, in that directory, of the lexically last such name. *)
Theorem locate_templates_lexically_last
    (tplpath : string) (entries : list string) :
  endswith tplpath ".jar" = true ->
  listdir (dirname tplpath) = Ok entries ->
  existsb (fun c => startswith c (basename (fst (splitext tplpath))))
    entries = true ->
  forallb (fun c => exists_ (join (dirname tplpath) c)) entries = true ->
  exists best,
    In best entries /\
    startswith best (basename (fst (splitext tplpath))) = true /\
    (forall c, In c entries ->
       startswith c (basename (fst (splitext tplpath))) = true ->
       String.leb c best = true) /\
    locate_templates module_file exists_ listdir tplpath
      = Ok (join (dirname tplpath) best).
Proof.
  intros Hjar Hdir Hsome Hall.
  apply endswith_lower in Hjar. change (lower ".jar") with ".jar" in Hjar.
  rewrite (locate_templates_jar tplpath Hjar), Hdir. cbn [rbind].
  destruct (last_item_sort (jar_candidates tplpath entries))
    as (best & -> & Hin & Hmax).
  - apply existsb_exists in Hsome. destruct Hsome as (c & Hc & Hs).
    intros E. assert (In c (jar_candidates tplpath entries)) as Hc'
      by (apply List.filter_In; split; assumption).
    rewrite E in Hc'. exact Hc'.
  - apply List.filter_In in Hin. destruct Hin as [Hin Hs].
    exists best. repeat split; try assumption.
    + intros c Hc Hcs. apply Hmax, List.filter_In. split; assumption.
    + cbn [rbind]. rewrite forallb_forall in Hall. now rewrite (Hall best Hin).
Qed.

(** With a jar path and no candidate in its directory, the look-up of the
    last candidate raises [IndexError]. *)
Lemma locate_templates_no_candidate
    (tplpath : string) (entries : list string) :
  endswith (lower tplpath) ".jar" = true ->
  listdir (dirname tplpath) = Ok entries ->
  jar_candidates tplpath entries = [] ->
  locate_templates module_file exists_ listdir tplpath = Raise IndexError.
Proof.
  intros Hjar Hdir Hnone.
  rewrite (locate_templates_jar tplpath Hjar), Hdir. cbn [rbind].
  rewrite Hnone. reflexivity.
Qed.

(** Without a jar path the only failure is the [IOError] of a path that
    does not exist. *)
Lemma locate_templates_plain (tplpath : string) :
  tplpath <> "" ->
  endswith (lower tplpath) ".jar" = false ->
  locate_templates module_file exists_ listdir tplpath =
    if exists_ tplpath then Ok tplpath else Raise IOError.
Proof.
  intros Hne Hjar. unfold locate_templates.
  destruct (String.eqb_spec tplpath "") as [E | _]; [congruence |].
  cbv beta iota zeta. rewrite Hjar. cbn [rbind]. destruct (exists_ tplpath); reflexivity.
Qed.

End Templates.

(** C5. The path [/empty/foo.jar] names a jar whose directory lists no
    candidate: [locate_templates] leaves with [IndexError], not with the
    [IOError] of a location that cannot be found. *)
Theorem locate_templates_index_error :
  Sample.listdir "/empty" = Ok [] /\
  locate_templates Sample.module_file Sample.exists_ Sample.listdir
    "/empty/foo.jar" = Raise IndexError.
Proof. split; reflexivity. Qed.

(** ** Stitching macros *)


Section Macro.

Variable version : string.
Variable module_file : string.
Variable exists_ : string -> bool.
Variable listdir : string -> result (list string).
Variable readtxt : string -> string -> result (list string).

Lemma fmt_macro_header :
  fmt conv_s ("// Generated by %s (%s)." +:+ nl +:+ nl) [module_name; version]
    = Ok (macro_header version).
Proof. reflexivity. Qed.

Lemma fmt_name_line (dname : string) :
  fmt conv_s ("name = " +:+ dq +:+ "%s" +:+ dq +:+ ";" +:+ nl) [dname]
    = Ok (name_line dname).
Proof. reflexivity. Qed.

Lemma fmt_input_dir_line (path : string) :
  fmt conv_s ("input_dir=" +:+ dq +:+ "%s" +:+ dq +:+ ";" +:+ nl)
    [replace backslash "\\" path] = Ok (input_dir_line path).
Proof. reflexivity. Qed.

Lemma fmt_assignment (opt : string * string) :
  (let '(option, value) := opt in
   fmt conv_s ("%s = %s;" +:+ nl) [option; value]) = Ok (assignment opt).
Proof. destruct opt as [o v]. reflexivity. Qed.

(** The generator, with the failures of its four look-ups in the order
    they occur and the lines it returns. *)
Lemma gen_stitching_macro_code_eq (experiment : MosaicExperiment)
    (pfx path tplpath : string) (opts : list (string * string)) :
  gen_stitching_macro_code version module_file exists_ listdir readtxt
    experiment pfx path tplpath opts =
  rbind (locate_templates module_file exists_ listdir tplpath) (fun templates =>
  rbind (readtxt (pfx +:+ "_head.ijm") templates) (fun head =>
  rbind (first_item (mosaics experiment)) (fun mosaic0 =>
  rbind (readtxt (pfx +:+ "_body.ijm") templates) (fun body =>
  Ok (macro_before version (infile_dname experiment) path opts head
        ++ (if (overlap_pct mosaic0 <? 5)%float then [compute_false] else [])
        ++ macro_after body))))).
Proof.
  unfold gen_stitching_macro_code, macro_before, macro_after.
  destruct (locate_templates _ _ _ _) as [templates | e]; [| reflexivity].
  cbn [rbind]. rewrite fmt_macro_header. cbn [rbind].
  destruct (readtxt (pfx +:+ "_head.ijm") templates) as [head | e];
    [| reflexivity].
  cbn [rbind]. rewrite fmt_name_line. cbn [rbind]. cbv zeta.
  rewrite fmt_input_dir_line. cbn [rbind].
  rewrite (mapM_total _ assignment) by (intros [o v]; reflexivity).
  cbn [rbind].
  destruct (first_item (mosaics experiment)) as [mosaic0 | e]; [| reflexivity].
  cbn [rbind].
  destruct (readtxt (pfx +:+ "_body.ijm") templates) as [body | e];
    [| reflexivity].
  cbn [rbind]. f_equal.
  destruct (overlap_pct mosaic0 <? 5)%float;
    repeat rewrite <- List.app_assoc; reflexivity.
Qed.

(** C8. The macro is, in this order: the head template lines (between the
    generator's header and markers), the assignment of the experiment name,
    the assignment of the input path with its backslashes doubled, the
    batch-mode flag, one assignment per option, the [compute = false] line
    when the overlap is below 5, and the body template lines (between their
    markers). *)
Theorem gen_stitching_macro_code_order (experiment : MosaicExperiment)
    (pfx path tplpath : string) (opts : list (string * string))
    (templates : string) (head body : list string)
    (mosaic0 : MosaicData) (rest : list MosaicData) :
  locate_templates module_file exists_ listdir tplpath = Ok templates ->
  readtxt (pfx +:+ "_head.ijm") templates = Ok head ->
  mosaics experiment = mosaic0 :: rest ->
  readtxt (pfx +:+ "_body.ijm") templates = Ok body ->
  gen_stitching_macro_code version module_file exists_ listdir readtxt
    experiment pfx path tplpath opts =
  Ok ([macro_header version; begin_head] ++ head ++ [end_head; nl]
      ++ ["name = " +:+ dq +:+ infile_dname experiment +:+ dq +:+ ";" +:+ nl]
      ++ ["input_dir=" +:+ dq +:+ replace backslash "\\" path +:+ dq +:+ ";" +:+ nl]
      ++ ["use_batch_mode = true;" +:+ nl]
      ++ map (fun opt => fst opt +:+ " = " +:+ snd opt +:+ ";" +:+ nl) opts
      ++ (if (overlap_pct mosaic0 <? 5)%float
          then ["compute = false;" +:+ nl] else [])
      ++ [nl; begin_body] ++ body ++ [end_body]).
Proof.
  intros Htpl Hhead Hexp Hbody.
  rewrite gen_stitching_macro_code_eq, Htpl, Hexp. cbn [rbind first_item].
  rewrite Hhead. cbn [rbind]. rewrite Hbody. cbn [rbind].
  unfold macro_before, macro_after. f_equal.
  repeat rewrite <- List.app_assoc. reflexivity.
Qed.

(** None of the lines the generator writes around the options is the
    [compute] line. *)
Lemma compute_false_not_fixed (dname path : string) :
  ~ In compute_false
      [macro_header version; begin_head; end_head; nl; name_line dname;
       input_dir_line path; batch_line; begin_body; end_body].
Proof.
  cbn [In]. intros H.
  repeat (destruct H as [H | H]; [discriminate H |]). exact H.
Qed.

(** C6. The generator inserts the line [compute = false;], between the
    option assignments and the body, if and only if the overlap percentage
    of the first mosaic is strictly below 5.0; when no template line and no
    option assignment reads the same, the line occurs in the macro under
    that condition only. *)
Theorem gen_stitching_macro_code_compute (experiment : MosaicExperiment)
    (pfx path tplpath : string) (opts : list (string * string))
    (templates : string) (head body : list string)
    (mosaic0 : MosaicData) (rest : list MosaicData) :
  locate_templates module_file exists_ listdir tplpath = Ok templates ->
  readtxt (pfx +:+ "_head.ijm") templates = Ok head ->
  mosaics experiment = mosaic0 :: rest ->
  readtxt (pfx +:+ "_body.ijm") templates = Ok body ->
  exists ijm inserted,
    gen_stitching_macro_code version module_file exists_ listdir readtxt
      experiment pfx path tplpath opts = Ok ijm /\
    ijm = macro_before version (infile_dname experiment) path opts head
            ++ inserted ++ macro_after body /\
    (inserted = ["compute = false;" +:+ nl]
       <-> (overlap_pct mosaic0 <? 5)%float = true) /\
    (inserted = [] <-> (overlap_pct mosaic0 <? 5)%float = false) /\
    (~ In compute_false (head ++ map assignment opts ++ body) ->
     (In ("compute = false;" +:+ nl) ijm
        <-> (overlap_pct mosaic0 <? 5)%float = true)).
Proof.
  intros Htpl Hhead Hexp Hbody.
  exists (macro_before version (infile_dname experiment) path opts head
            ++ (if (overlap_pct mosaic0 <? 5)%float then [compute_false] else [])
            ++ macro_after body),
         (if (overlap_pct mosaic0 <? 5)%float then [compute_false] else []).
  split.
  { rewrite gen_stitching_macro_code_eq, Htpl, Hexp. cbn [rbind first_item].
    rewrite Hhead. cbn [rbind]. rewrite Hbody. reflexivity. }
  split; [reflexivity |].
  change ("compute = false;" +:+ nl) with compute_false.
  destruct (overlap_pct mosaic0 <? 5)%float.
  - split; [split; reflexivity |]. split; [split; discriminate |].
    intros _. split; [reflexivity |]. intros _.
    apply in_or_app. right. apply in_or_app. left. now left.
  - split; [split; discriminate |]. split; [split; reflexivity |].
    intros Hnot. split; [| discriminate]. intros Hin. exfalso.
    pose proof (compute_false_not_fixed (infile_dname experiment) path) as Hfix.
    unfold macro_before, macro_after in Hin.
    repeat (rewrite ?in_app_iff in Hin; cbn [In] in Hin).
    rewrite !in_app_iff in Hnot. cbn [In] in Hfix. tauto.
Qed.

End Macro.

(** ** Path separators *)

(** C7, as the specification words it, fails on the macro: an input path
    written with backslashes reaches the macro with backslashes. *)
Lemma macro_emits_backslashes :
  exists ijm line,
    gen_stitching_macro_code Sample.version Sample.module_file Sample.exists_
      Sample.listdir Sample.readtxt (Sample.experiment [Sample.stack])
      "stitch" "C:\data\exp" "/tpl" [] = Ok ijm /\
    In line ijm /\
    line = "input_dir=" +:+ dq +:+ "C:\\data\\exp" +:+ dq +:+ ";" +:+ nl /\
    has_char backslash line = true.
Proof.
  eexists. eexists. split; [vm_compute; reflexivity |].
  split; [do 6 right; left; reflexivity |].
  split; reflexivity.
Qed.

(** C7, amended. On every coordinate line of a tile configuration the path
    of the sub-volume is shown with a forward slash for each backslash and
    holds no backslash.  The macro generator does not convert separators:
    its [input_dir] line holds the input path with each backslash doubled
    and each forward slash kept. *)
Theorem generators_path_separators
    (version module_file : string) (format_f : float -> string)
    (exists_ : string -> bool) (listdir : string -> result (list string))
    (readtxt : string -> string -> result (list string))
    (m : MosaicData) (vol0 : SubVolume) (vols : list SubVolume)
    (experiment : MosaicExperiment)
    (pfx path tplpath : string) (opts : list (string * string))
    (templates : string) (head body : list string)
    (mosaic0 : MosaicData) (rest : list MosaicData) :
  subvol m = vol0 :: vols ->
  locate_templates module_file exists_ listdir tplpath = Ok templates ->
  readtxt (pfx +:+ "_head.ijm") templates = Ok head ->
  mosaics experiment = mosaic0 :: rest ->
  readtxt (pfx +:+ "_body.ijm") templates = Ok body ->
  match gen_tile_config version format_f m with
  | Ok conf =>
      exists lines,
        conf = preamble version (declared_dim vol0) ++ lines /\
        Forall2 (forward_slash_line m) (subvol m) lines
  | Raise e =>
      e = TypeError /\
      Exists (fun vol => length (position_relative vol) <> coord_arity vol0)
        (subvol m)
  end /\
  exists ijm line,
    gen_stitching_macro_code version module_file exists_ listdir readtxt
      experiment pfx path tplpath opts = Ok ijm /\
    In line ijm /\
    line = "input_dir=" +:+ dq +:+ replace backslash "\\" path +:+ dq
             +:+ ";" +:+ nl /\
    count_char backslash line = (2 * count_char backslash path)%nat /\
    count_char slash line = count_char slash path.
Proof.
  intros Hvol Htpl Hhead Hexp Hbody. split.
  - pose proof (gen_tile_config_lines version format_f m vol0 vols Hvol) as Hc.
    destruct (gen_tile_config version format_f m) as [conf | e]; [| exact Hc].
    destruct Hc as (lines & -> & Hall).
    exists lines. split; [reflexivity |].
    eapply Forall2_impl; [exact Hall |].
    intros vol line [_ ->].
    exists (shown_path m vol), (coord_texts format_f vol0 vol).
    split; [reflexivity |]. split; [reflexivity |]. unfold shown_path.
    apply replace_char_gone; discriminate.
  - eexists. exists (input_dir_line path). split.
    + apply (gen_stitching_macro_code_order version module_file exists_ listdir
               readtxt experiment pfx path tplpath opts templates head body
               mosaic0 rest); assumption.
    + split.
      * apply in_or_app. right. apply in_or_app. right.
        apply in_or_app. right. apply in_or_app. right.
        apply in_or_app. left. now left.
      * split; [reflexivity |]. unfold input_dir_line.
        rewrite !count_char_app.
        change (replace backslash "\\" path)
          with (replace backslash (String backslash (String backslash "")) path).
        rewrite replace_double_count, replace_double_other by discriminate.
        change (count_char backslash "input_dir=") with 0%nat.
        change (count_char backslash dq) with 0%nat.
        change (count_char backslash ";") with 0%nat.
        change (count_char backslash nl) with 0%nat.
        change (count_char slash "input_dir=") with 0%nat.
        change (count_char slash dq) with 0%nat.
        change (count_char slash ";") with 0%nat.
        change (count_char slash nl) with 0%nat.
        split; lia.
Qed.

(** ** Writing the files *)

(** *** The name of a tile configuration *)

Section FormatSteps.

Context {A : Type}.
Variable conv : bool -> nat -> ascii -> A -> result string.

Lemma fmt_go_lit (c : ascii) (r : string) (args : list A) :
  Ascii.eqb c "%" = false ->
  fmt_go conv Lit (String c r) args =
    rbind (fmt_go conv Lit r args) (fun t => Ok (String c t)).
Proof. intros H. cbn [fmt_go]. rewrite H. reflexivity. Qed.

Lemma fmt_go_percent (r : string) (args : list A) :
  fmt_go conv Lit (String "%" r) args = fmt_go conv (Flags false) r args.
Proof. reflexivity. Qed.

Lemma fmt_go_flag_zero (zero : bool) (r : string) (args : list A) :
  fmt_go conv (Flags zero) (String "0" r) args = fmt_go conv (Flags true) r args.
Proof. reflexivity. Qed.

Lemma fmt_go_flags_digit (zero : bool) (c : ascii) (d : nat) (r : string)
    (args : list A) :
  Ascii.eqb c "0" = false -> digit_of c = Some d ->
  fmt_go conv (Flags zero) (String c r) args = fmt_go conv (Width zero d) r args.
Proof. intros H0 Hd. cbn [fmt_go]. rewrite H0, Hd. reflexivity. Qed.

Lemma fmt_go_width_digit (zero : bool) (w : nat) (c : ascii) (d : nat)
    (r : string) (args : list A) :
  digit_of c = Some d ->
  fmt_go conv (Width zero w) (String c r) args =
    fmt_go conv (Width zero (10 * w + d)) r args.
Proof. intros Hd. cbn [fmt_go]. rewrite Hd. reflexivity. Qed.

End FormatSteps.

(** A width written in decimal is read back as the number it denotes. *)
Lemma fmt_go_width_uint (d : Decimal.uint) (w : nat) (z : Z) :
  fmt_go conv_i (Width true w) (NilEmpty.string_of_uint d +:+ "i.txt") [z] =
    Ok (fmt_int true (Nat.of_uint_acc d w) z +:+ ".txt").
Proof.
  revert w. induction d as [| d IH | d IH | d IH | d IH | d IH | d IH
                            | d IH | d IH | d IH | d IH]; intros w;
    [reflexivity | ..];
    cbn [NilEmpty.string_of_uint String.append Nat.of_uint_acc];
    erewrite fmt_go_width_digit by reflexivity;
    rewrite IH, Nat.tail_mul_spec;
    match goal with
    | |- context [(nat_of_ascii ?c - 48)%nat] =>
        let v := eval vm_compute in (nat_of_ascii c - 48)%nat in
        change (nat_of_ascii c - 48)%nat with v
    end;
    do 4 f_equal; lia.
Qed.

Lemma fmt_go_flags_uint (d : Decimal.uint) (z : Z) :
  fmt_go conv_i (Flags true) (NilEmpty.string_of_uint d +:+ "i.txt") [z] =
    Ok (fmt_int true (Nat.of_uint d) z +:+ ".txt").
Proof.
  unfold Nat.of_uint.
  induction d as [| d IH | d IH | d IH | d IH | d IH | d IH
                  | d IH | d IH | d IH | d IH];
    [reflexivity | ..];
    cbn [NilEmpty.string_of_uint String.append Nat.of_uint_acc].
  - rewrite fmt_go_flag_zero. exact IH.
  - erewrite fmt_go_flags_digit by reflexivity. apply fmt_go_width_uint.
  - erewrite fmt_go_flags_digit by reflexivity. apply fmt_go_width_uint.
  - erewrite fmt_go_flags_digit by reflexivity. apply fmt_go_width_uint.
  - erewrite fmt_go_flags_digit by reflexivity. apply fmt_go_width_uint.
  - erewrite fmt_go_flags_digit by reflexivity. apply fmt_go_width_uint.
  - erewrite fmt_go_flags_digit by reflexivity. apply fmt_go_width_uint.
  - erewrite fmt_go_flags_digit by reflexivity. apply fmt_go_width_uint.
  - erewrite fmt_go_flags_digit by reflexivity. apply fmt_go_width_uint.
  - erewrite fmt_go_flags_digit by reflexivity. apply fmt_go_width_uint.
Qed.

(** ['mosaic_%0' + str(padlen) + 'i.txt'] applied to an index. *)
Lemma fmt_mosaic_name (padlen : nat) (index : Z) :
  fmt conv_i ("mosaic_%0" +:+ str_nat padlen +:+ "i.txt") [index] =
    Ok ("mosaic_" +:+ fmt_int true padlen index +:+ ".txt").
Proof.
  pose proof (fmt_go_flags_uint (Nat.to_uint padlen) index) as H.
  rewrite DecimalNat.Unsigned.of_to in H.
  unfold fmt, str_nat. cbn [String.append].
  rewrite !fmt_go_lit by reflexivity.
  rewrite fmt_go_percent, fmt_go_flag_zero, H. reflexivity.
Qed.


(** ** The file object *)

Lemma find_handle_head (h p : string) (hs : list handle) :
  find_handle h ({| hname := h; pending := p |} :: hs) = Some p.
Proof. cbn [find_handle hname pending]. now rewrite String.eqb_refl. Qed.

Lemma set_pending_head (h p q : string) (hs : list handle) :
  set_pending h q ({| hname := h; pending := p |} :: hs)
    = {| hname := h; pending := q |} :: hs.
Proof. cbn [set_pending hname]. now rewrite String.eqb_refl. Qed.

Lemma remove_handle_head (h p : string) (hs : list handle) :
  remove_handle h ({| hname := h; pending := p |} :: hs) = hs.
Proof. cbn [remove_handle hname]. now rewrite String.eqb_refl. Qed.

Lemma flush_head (h p : string) (hs : list handle) (w : world) :
  handles w = {| hname := h; pending := p |} :: hs ->
  flush h w =
    ({| files := <[h := default "" (files w !! h)
                        +:+ take (Nat.min (len p) (free w)) p]> (files w);
        handles := {| hname := h;
                      pending := drop (Nat.min (len p) (free w)) p |} :: hs;
        free := free w - Nat.min (len p) (free w);
        bufsize := bufsize w |},
     if (len p <=? free w)%nat then Ok tt else Raise IOError).
Proof.
  intros Hh. unfold flush. rewrite Hh, find_handle_head, set_pending_head.
  reflexivity.
Qed.

(** What [writelines] does to the file object [h] that holds [p], on a file
    of content [c]: [k] bytes of the text reach the disk.  When it returns,
    the others are in the buffer, which is not beyond its size; when it
    raises, the device is full. *)
Lemma writelines_spec (h : string) (lines : list string) :
  forall (w : world) (c p : string) (hs : list handle),
    files w !! h = Some c ->
    handles w = {| hname := h; pending := p |} :: hs ->
    exists (k : nat) (p' : string) (r : result unit),
      writelines h lines w =
        ({| files := <[h := c +:+ take k (p +:+ joinlines lines)]> (files w);
            handles := {| hname := h; pending := p' |} :: hs;
            free := free w - k;
            bufsize := bufsize w |}, r) /\
      k <= free w /\
      ((r = Ok tt /\ p' = drop k (p +:+ joinlines lines) /\
        k <= len (p +:+ joinlines lines) /\
        (len p <= bufsize w -> len p' <= bufsize w)) \/
       (r = Raise IOError /\ k = free w /\
        free w < len (p +:+ joinlines lines))).
Proof.
  induction lines as [|line rest IH]; intros w c p hs Hc Hh.
  - exists 0, p, (Ok tt). split; [| split; [lia |]].
    + unfold writelines. cbn [for_each ret take].
      rewrite app_nil_r_s, (insert_id _ _ _ Hc), Nat.sub_0_r, <- Hh.
      destruct w; reflexivity.
    + left. cbn [drop]. change (joinlines []) with "".
      rewrite app_nil_r_s. repeat split; [lia | tauto].
  - unfold writelines. cbn [for_each]. fold (writelines h rest).
    unfold bind, write. rewrite Hh, find_handle_head, set_pending_head.
    rewrite joinlines_cons, <- app_assoc_s.
    destruct (len (p +:+ line) <=? bufsize w)%nat eqn:Hb.
    + destruct (IH {| files := files w;
                      handles := {| hname := h; pending := p +:+ line |} :: hs;
                      free := free w; bufsize := bufsize w |}
                  c (p +:+ line) hs Hc eq_refl)
        as (k & p' & r & Hrun & Hk & Hcases).
      cbn [files handles free bufsize] in Hrun, Hk, Hcases.
      rewrite Hrun. exists k, p', r.
      split; [destruct r as [[] |]; reflexivity |]. split; [exact Hk |].
      destruct Hcases as [(Hr & Hp & Hkl & Hbuf) | (Hr & Hkf & Hlt)].
      * left. repeat split; try assumption.
        intros _. apply Hbuf. apply Nat.leb_le. exact Hb.
      * right. repeat split; assumption.
    + rewrite (flush_head h (p +:+ line) hs) by reflexivity.
      cbn [files handles free bufsize]. rewrite Hc. cbn [default from_option id].
      destruct (len (p +:+ line) <=? free w)%nat eqn:Hf.
      * apply Nat.leb_le in Hf. rewrite Nat.min_l by exact Hf.
        rewrite take_all, drop_all by lia.
        destruct (IH {| files := <[h := c +:+ p +:+ line]> (files w);
                        handles := {| hname := h; pending := "" |} :: hs;
                        free := free w - len (p +:+ line);
                        bufsize := bufsize w |}
                    (c +:+ p +:+ line) "" hs (lookup_insert_eq _ _ _) eq_refl)
          as (k & p' & r & Hrun & Hk & Hcases).
        cbn [files handles free bufsize String.append] in Hrun, Hk, Hcases.
        rewrite Hrun. exists (len (p +:+ line) + k), p', r.
        rewrite insert_insert_eq, take_app_plus, drop_app_plus, Nat.sub_add_distr.
        rewrite <- (app_assoc_s c (p +:+ line)) at 1.
        split; [destruct r as [[] |]; reflexivity |]. split; [lia |].
        rewrite !len_app in *.
        destruct Hcases as [(Hr & Hp & Hkl & Hbuf) | (Hr & Hkf & Hlt)].
        -- left. repeat split; try assumption; [lia |].
           intros _. apply Hbuf. cbn. lia.
        -- right. repeat split; [assumption | lia | lia].
      * apply Nat.leb_gt in Hf. rewrite Nat.min_r by lia.
        exists (free w), (drop (free w) (p +:+ line)), (Raise IOError).
        rewrite (take_app_le (p +:+ line)) by lia.
        split; [reflexivity |]. split; [lia |].
        right. repeat split. rewrite len_app. lia.
Qed.

(** Writing and closing with room for the text: the file gets all of it. *)
Lemma writelines_close_ok (h : string) (lines : list string) (w : world)
    (c p : string) (hs : list handle) :
  files w !! h = Some c ->
  handles w = {| hname := h; pending := p |} :: hs ->
  len (p +:+ joinlines lines) <= free w ->
  bind (writelines h lines) (fun _ => close h) w =
    ({| files := <[h := c +:+ p +:+ joinlines lines]> (files w);
        handles := hs;
        free := free w - len (p +:+ joinlines lines);
        bufsize := bufsize w |}, Ok tt).
Proof.
  intros Hc Hh Hroom.
  destruct (writelines_spec h lines w c p hs Hc Hh)
    as (k & p' & r & Hrun & Hk & [(-> & -> & Hkl & _) | (_ & _ & Hlt)]);
    [| lia].
  unfold bind. rewrite Hrun. unfold close.
  cbn [handles]. rewrite find_handle_head.
  erewrite flush_head by reflexivity.
  cbn [files handles free bufsize]. rewrite lookup_insert_eq. cbn [default from_option id].
  rewrite len_drop, Nat.min_l by lia.
  rewrite (take_all _ (drop k _)), remove_handle_head
    by (rewrite len_drop; lia).
  assert ((len (p +:+ joinlines lines) - k <=? free w - k)%nat = true) as ->
    by (apply Nat.leb_le; lia).
  rewrite insert_insert_eq, app_assoc_s, take_drop.
  replace (free w - k - (len (p +:+ joinlines lines) - k))
    with (free w - len (p +:+ joinlines lines)) by lia.
  reflexivity.
Qed.

(** Writing and closing without room for the text: the file gets the
    bytes that fit, and the writing or the closing raises [IOError]. *)
Lemma writelines_close_full (h : string) (lines : list string) (w : world)
    (c p : string) (hs : list handle) :
  files w !! h = Some c ->
  handles w = {| hname := h; pending := p |} :: hs ->
  free w < len (p +:+ joinlines lines) ->
  exists (w2 : world) (r rc : result unit),
    writelines h lines w = (w2, r) /\
    close h w2 =
      ({| files := <[h := c +:+ take (free w) (p +:+ joinlines lines)]> (files w);
          handles := hs;
          free := 0;
          bufsize := bufsize w |}, rc) /\
    match rc with Ok _ => r | Raise e => Raise e end = Raise IOError.
Proof.
  intros Hc Hh Hroom.
  destruct (writelines_spec h lines w c p hs Hc Hh)
    as (k & p' & r & Hrun & Hk & Hcases).
  destruct Hcases as [(-> & -> & Hkl & _) | (-> & -> & _)].
  - eexists _, (Ok tt), (Raise IOError). split; [exact Hrun |].
    unfold close. cbn [handles]. rewrite find_handle_head.
    erewrite flush_head by reflexivity.
    cbn [files handles free bufsize]. rewrite lookup_insert_eq.
    cbn [default from_option id].
    rewrite remove_handle_head, insert_insert_eq.
    rewrite len_drop, Nat.min_r by lia.
    assert ((len (p +:+ joinlines lines) - k <=? free w - k)%nat = false) as ->
      by (apply Nat.leb_gt; lia).
    rewrite app_assoc_s, take_drop_plus, Nat.sub_diag.
    replace (k + (free w - k)) with (free w) by lia.
    split; reflexivity.
  - eexists _, (Raise IOError),
      (if (len p' <=? 0)%nat then Ok tt else Raise IOError).
    split; [exact Hrun |].
    unfold close. cbn [handles]. rewrite find_handle_head.
    erewrite flush_head by reflexivity.
    cbn [files handles free bufsize]. rewrite lookup_insert_eq.
    cbn [default from_option id].
    rewrite remove_handle_head, insert_insert_eq.
    rewrite Nat.sub_diag, Nat.min_0_r. cbn [take]. rewrite app_nil_r_s.
    split; [reflexivity |]. destruct (len p' <=? 0)%nat; reflexivity.
Qed.

(** A text beyond the buffer and the room of the device: [writelines]
    itself raises, with the file open. *)
Lemma writelines_beyond_buffer (h : string) (lines : list string) (w : world)
    (c : string) (hs : list handle) :
  files w !! h = Some c ->
  handles w = {| hname := h; pending := "" |} :: hs ->
  bufsize w + free w < len (joinlines lines) ->
  exists (w2 : world) (p' : string),
    writelines h lines w = (w2, Raise IOError) /\
    handles w2 = {| hname := h; pending := p' |} :: hs.
Proof.
  intros Hc Hh Hroom.
  destruct (writelines_spec h lines w c "" hs Hc Hh)
    as (k & p' & r & Hrun & Hk & Hcases).
  cbn [String.append] in Hrun, Hcases.
  destruct Hcases as [(_ & Hp & Hkl & Hbuf) | (-> & _ & _)].
  - exfalso. specialize (Hbuf ltac:(cbn; lia)).
    rewrite Hp, len_drop in Hbuf. lia.
  - eexists _, p'. split; [exact Hrun | reflexivity].
Qed.

Section Writing.

Variable version : string.
Variable can_open : string -> bool.
Variable format_f : float -> string.

Lemma tile_config_fname_eq (m : MosaicData) (outdir : string) (padlen : nat) :
  tile_config_fname m outdir padlen = Ok (tile_config_name padlen outdir m).
Proof.
  unfold tile_config_fname, tile_config_name. rewrite fmt_mosaic_name.
  cbn [rbind]. destruct (String.eqb outdir ""); reflexivity.
Qed.

(** Under the [0] flag a non-negative index is its digits after as many
    zeros as it takes to reach the width. *)
Lemma fmt_int_zero_padded (w : nat) (z : Z) :
  (0 <= z)%Z ->
  fmt_int true w z =
    repeat_char "0" (w - len (str_N (Z.to_N z))) +:+ str_N (Z.to_N z).
Proof.
  intros Hz. unfold fmt_int.
  assert ((z <? 0)%Z = false) as -> by lia.
  replace (Z.abs_N z) with (Z.to_N z) by lia. reflexivity.
Qed.

(** The writing functions *)

(** A successful write: the file holds the configuration and is closed. *)
Lemma write_tile_config_ok (m : MosaicData) (outdir : string) (padlen : nat)
    (config : list string) (w : world) :
  gen_tile_config version format_f m = Ok config ->
  can_open (tile_config_name padlen outdir m) = true ->
  len (joinlines config)
    <= free w + len (default "" (files w !! tile_config_name padlen outdir m)) ->
  write_tile_config version can_open format_f m outdir padlen w =
    ({| files := <[tile_config_name padlen outdir m := joinlines config]> (files w);
        handles := handles w;
        free := free w
                + len (default "" (files w !! tile_config_name padlen outdir m))
                - len (joinlines config);
        bufsize := bufsize w |}, Ok tt).
Proof.
  intros Hconf Hopen Hroom.
  unfold write_tile_config, lift. unfold bind at 1 2 3.
  rewrite Hconf, tile_config_fname_eq.
  unfold open_w. rewrite Hopen.
  erewrite writelines_close_ok;
    [| apply lookup_insert_eq | reflexivity | cbn; exact Hroom].
  cbn [files handles free bufsize String.append].
  now rewrite insert_insert_eq.
Qed.

(** A write beyond the buffer that fails: the exception leaves
    [write_tile_config] before [out.close()], and the file stays open. *)
Lemma write_tile_config_full (m : MosaicData) (outdir : string) (padlen : nat)
    (config : list string) (w : world) :
  gen_tile_config version format_f m = Ok config ->
  can_open (tile_config_name padlen outdir m) = true ->
  bufsize w + free w
    + len (default "" (files w !! tile_config_name padlen outdir m))
    < len (joinlines config) ->
  exists (w' : world) (p : string),
    write_tile_config version can_open format_f m outdir padlen w
      = (w', Raise IOError) /\
    handles w' = {| hname := tile_config_name padlen outdir m; pending := p |}
                   :: handles w.
Proof.
  intros Hconf Hopen Hroom.
  unfold write_tile_config, lift. unfold bind.
  rewrite Hconf, tile_config_fname_eq.
  unfold open_w. rewrite Hopen.
  destruct (writelines_beyond_buffer (tile_config_name padlen outdir m) config
              {| files := <[tile_config_name padlen outdir m := ""]> (files w);
                 handles := {| hname := tile_config_name padlen outdir m;
                               pending := "" |} :: handles w;
                 free := free w
                         + len (default ""
                                  (files w !! tile_config_name padlen outdir m));
                 bufsize := bufsize w |}
              "" (handles w) (lookup_insert_eq _ _ _) eq_refl)
    as (w2 & p' & Hrun & Hh).
  - cbn [bufsize free]. lia.
  - rewrite Hrun. exists w2, p'. split; [reflexivity | exact Hh].
Qed.

End Writing.

Section WritingMacro.

Variable can_open : string -> bool.

(** [write_stitching_macro] leaves no file open, whatever happens. *)
Lemma write_stitching_macro_closes (code : list string) (fname dname : string)
    (w : world) :
  handles (fst (write_stitching_macro can_open code fname dname w)) = handles w.
Proof.
  unfold write_stitching_macro, with_open, open_w.
  destruct (can_open (join dname fname)); [| reflexivity].
  destruct (writelines_spec (join dname fname) code
              {| files := <[join dname fname := ""]> (files w);
                 handles := {| hname := join dname fname; pending := "" |}
                              :: handles w;
                 free := free w
                         + len (default "" (files w !! join dname fname));
                 bufsize := bufsize w |}
              "" "" (handles w) (lookup_insert_eq _ _ _) eq_refl)
    as (k & p' & r & Hrun & _).
  rewrite Hrun. unfold close. cbn [handles]. rewrite find_handle_head.
  erewrite flush_head by reflexivity. cbn [files handles free bufsize].
  rewrite remove_handle_head.
  destruct (len p' <=? _)%nat; reflexivity.
Qed.

End WritingMacro.

Section WriteAll.

Variable version : string.
Variable can_open : string -> bool.
Variable format_f : float -> string.


(** The loop of [write_all_tile_configs], for any padding length. *)
Lemma for_each_write_tile_config (padlen : nat) (outdir : string)
    (l : list MosaicData) :
  forall w : world,
    forallb (writable version format_f can_open padlen outdir) l = true ->
    total_bytes version format_f l <= free w ->
    exists w',
      for_each (fun m => write_tile_config version can_open format_f m outdir padlen)
        l w = (w', Ok tt) /\
      handles w' = handles w /\
      (forall m, In m l ->
         exists m', In m' l /\
           tile_config_name padlen outdir m' = tile_config_name padlen outdir m /\
           files w' !! tile_config_name padlen outdir m
             = Some (config_text version format_f m')) /\
      (forall q, (forall m, In m l -> tile_config_name padlen outdir m <> q) ->
         files w' !! q = files w !! q).
Proof.
  induction l as [|a l IH]; intros w Hall Hroom.
  - exists w. cbn [for_each ret].
    split; [reflexivity |]. split; [reflexivity |].
    split; [intros m [] | intros q _; reflexivity].
  - cbn [forallb] in Hall. apply andb_true_iff in Hall. destruct Hall as [Ha Hl].
    unfold writable in Ha. apply andb_true_iff in Ha. destruct Ha as [Hgen Hopen].
    destruct (gen_tile_config version format_f a) as [config | e] eqn:Hconf;
      [| discriminate Hgen].
    assert (config_text version format_f a = joinlines config) as Htext
      by (unfold config_text; now rewrite Hconf).
    change (total_bytes version format_f (a :: l))
      with (len (config_text version format_f a) + total_bytes version format_f l)
      in Hroom.
    rewrite Htext in Hroom.
    pose proof (write_tile_config_ok version can_open format_f a outdir padlen
                  config w Hconf Hopen ltac:(lia)) as Hw.
    set (w1 := {| files := <[tile_config_name padlen outdir a := joinlines config]>
                             (files w);
                  handles := handles w;
                  free := free w
                          + len (default ""
                                   (files w !! tile_config_name padlen outdir a))
                          - len (joinlines config);
                  bufsize := bufsize w |}) in Hw.
    destruct (IH w1 Hl) as (w' & Hrun & Hh & Hin & Hout);
      [cbn [w1 free]; lia |].
    exists w'. split; [cbn [for_each]; unfold bind; rewrite Hw; exact Hrun |].
    split; [rewrite Hh; reflexivity |]. split.
    + intros m [<- | Hm].
      * destruct (existsb (fun m2 => String.eqb (tile_config_name padlen outdir m2)
                                       (tile_config_name padlen outdir a)) l)
          eqn:Hdup.
        -- apply existsb_exists in Hdup. destruct Hdup as (m2 & Hm2 & Heq).
           apply String.eqb_eq in Heq.
           destruct (Hin m2 Hm2) as (m' & Hm' & Hname & Hfile).
           exists m'. split; [now right |]. rewrite <- Heq.
           split; assumption.
        -- exists a. split; [now left |]. split; [reflexivity |].
           rewrite Hout, Htext; [apply lookup_insert_eq |].
           intros m2 Hm2 Heq.
           assert (existsb (fun m2 => String.eqb (tile_config_name padlen outdir m2)
                                        (tile_config_name padlen outdir a)) l
                   = true) as Hyes
             by (apply existsb_exists; exists m2; split;
                 [exact Hm2 | apply String.eqb_eq; exact Heq]).
           congruence.
      * destruct (Hin m Hm) as (m' & Hm' & Hname & Hfile).
        exists m'. split; [now right |]. split; assumption.
    + intros q Hq. rewrite Hout by (intros m Hm; apply Hq; now right).
      cbn [w1 files]. apply lookup_insert_ne. apply Hq. now left.
Qed.

(** C3, amended.  In an experiment of N mosaics whose configurations can
    all be generated and written, [write_all_tile_configs] writes the
    configuration of each mosaic to the file [mosaic_<index>.txt] of the
    output directory, the index zero-padded to the number of digits of N
    (3 for N = 150), and to no other file; of two mosaics with the same
    file name the later one is kept. *)
Theorem write_all_tile_configs_names
    (experiment : MosaicExperiment) (outdir : string) (w : world) :
  forallb (writable version format_f can_open (padlen_of experiment) outdir)
    (mosaics experiment) = true ->
  total_bytes version format_f (mosaics experiment) <= free w ->
  exists w',
    write_all_tile_configs version can_open format_f experiment outdir w
      = (w', Ok tt) /\
    (forall m, In m (mosaics experiment) ->
       exists m', In m' (mosaics experiment) /\
         tile_config_name (padlen_of experiment) outdir m'
           = tile_config_name (padlen_of experiment) outdir m /\
         files w' !! tile_config_name (padlen_of experiment) outdir m
           = Some (config_text version format_f m')) /\
    (forall q,
       (forall m, In m (mosaics experiment) ->
          tile_config_name (padlen_of experiment) outdir m <> q) ->
       files w' !! q = files w !! q) /\
    handles w' = handles w /\
    padlen_of experiment = len (str_nat (length (mosaics experiment))) /\
    (length (mosaics experiment) = 150 -> padlen_of experiment = 3).
Proof.
  intros Hall Hroom.
  destruct (for_each_write_tile_config (padlen_of experiment) outdir
              (mosaics experiment) w Hall Hroom) as (w' & Hrun & Hh & Hin & Hout).
  exists w'. unfold write_all_tile_configs. fold (padlen_of experiment).
  repeat split; try assumption.
  intros HN. unfold padlen_of. rewrite HN. reflexivity.
Qed.

End WriteAll.

(** C3, as the specification words it, fails on ten mosaics numbered from
    0: the largest index, 9, has one digit, and the configuration of mosaic
    0 is written to [mosaic_00.txt], not to [mosaic_0.txt]. *)
Lemma write_all_tile_configs_ten_mosaics :
  let experiment := Sample.numbered 10 in
  let w' :=
    fst (write_all_tile_configs Sample.version (fun _ => true) render_f
           experiment "" (Sample.disk 4000)) in
  largest_index experiment = 9%Z /\
  largest_index_width experiment = 1 /\
  "mosaic_" +:+ fmt_int true (largest_index_width experiment) 0 +:+ ".txt"
    = "mosaic_0.txt" /\
  files w' !! "/data/exp/mosaic_0.txt" = None /\
  files w' !! "/data/exp/mosaic_00.txt"
    = Some (config_text Sample.version render_f
              (Sample.mosaic [Sample.tile 1 [0; 0]%float "/data/exp/t0.oib"]
                 "/data/exp/" 0 10%float)).
Proof. vm_compute. repeat split; reflexivity. Qed.

Section LeftOpen.

Variable version : string.
Variable can_open : string -> bool.
Variable format_f : float -> string.

(** C9. When the configuration is longer than the buffer of the file
    object and the room of the device together, [out.writelines(config)]
    raises [IOError] and [write_tile_config] returns with its file still
    open: the closing is not guaranteed.  [write_stitching_macro] does
    close its file, whatever happens. *)
Theorem write_tile_config_leaves_file_open
    (m : MosaicData) (outdir : string) (padlen : nat) (w : world) :
  writable version format_f can_open padlen outdir m = true ->
  bufsize w + free w
    + len (default "" (files w !! tile_config_name padlen outdir m))
    < len (config_text version format_f m) ->
  (exists (w' : world) (p : string),
     write_tile_config version can_open format_f m outdir padlen w
       = (w', Raise IOError) /\
     handles w' = {| hname := tile_config_name padlen outdir m; pending := p |}
                    :: handles w) /\
  (forall code fname dname,
     handles (fst (write_stitching_macro can_open code fname dname w))
       = handles w).
Proof.
  intros Hok Hroom. split; [| intros; apply write_stitching_macro_closes].
  unfold writable in Hok. apply andb_true_iff in Hok.
  destruct Hok as [Hgen Hopen]. unfold config_text in Hroom.
  destruct (gen_tile_config version format_f m) as [config | e] eqn:Hconf;
    [| discriminate Hgen].
  exact (write_tile_config_full version can_open format_f m outdir padlen
           config w Hconf Hopen Hroom).
Qed.

End LeftOpen.

(** A configuration within the buffer, on a device without room:
    [writelines] returns, and it is [out.close()] that raises, after
    closing the file. *)
Example write_tile_config_small_text :
  let failed := write_tile_config Sample.version (fun _ => true) render_f
                  Sample.flat "" 2 (Sample.disk 0) in
  snd failed = Raise IOError /\
  handles (fst failed) = [] /\
  files (fst failed) !! "/data/exp/mosaic_00.txt" = Some "".
Proof. vm_compute. repeat split; reflexivity. Qed.

(** ** The theorems at the sample data *)

Example locate_templates_two_releases :
  locate_templates Sample.module_file Sample.exists_ Sample.listdir
    "/plugins/foo.jar" = Ok "/plugins/foo-1.2.0.jar".
Proof. reflexivity. Qed.

Example padlen_of_150 : padlen_of (Sample.numbered 150) = 3.
Proof. reflexivity. Qed.

Example gen_tile_config_flat :
  gen_tile_config Sample.version render_f Sample.flat =
    Ok (preamble Sample.version "2"
          ++ ["t0.oib; ; (0.000000, 0.000000)" +:+ nl;
              "D:/other/t1.oib; ; (460.500000, 0.000000)" +:+ nl]).
Proof. reflexivity. Qed.

Example gen_tile_config_stack :
  gen_tile_config Sample.version render_f Sample.stack =
    Ok (preamble Sample.version "3"
          ++ ["s0.oib; ; (0.000000, 0.000000, 0.0)" +:+ nl;
              "s1.oib; ; (0.000000, 512.000000, 0.0)" +:+ nl]).
Proof. reflexivity. Qed.

Example gen_tile_config_cube :
  gen_tile_config Sample.version render_f Sample.cube =
    Ok (preamble Sample.version "3"
          ++ ["c0.oib; ; (0.000000, 0.000000, 4.000000)" +:+ nl]).
Proof. reflexivity. Qed.

(** A flat mosaic with positions of three components: the format takes
    two, and the [%] operator raises. *)
Example gen_tile_config_flat_xyz :
  gen_tile_config Sample.version render_f Sample.flat_xyz = Raise TypeError.
Proof. reflexivity. Qed.

Example tile_config_fname_padded :
  tile_config_fname Sample.flat "out" 3 = Ok "out/mosaic_000.txt" /\
  tile_config_fname Sample.stack "" 3 = Ok "/data/exp/mosaic_001.txt".
Proof. split; reflexivity. Qed.

(** The theorem of C1 at the flat sample mosaic. *)
Lemma gen_tile_config_dimensions_witness :
  exists lines,
    gen_tile_config Sample.version render_f Sample.flat
      = Ok (preamble Sample.version "2" ++ lines) /\
    Forall2 (two_floats render_f Sample.flat) (subvol Sample.flat) lines.
Proof.
  pose proof (gen_tile_config_dimensions Sample.version render_f Sample.flat
                _ _ eq_refl) as H.
  destruct (gen_tile_config Sample.version render_f Sample.flat)
    as [conf | e] eqn:E.
  - destruct H as [H2 _].
    destruct H2 as (lines & -> & Hall); [cbn; lia |].
    exists lines. split; [reflexivity | exact Hall].
  - vm_compute in E. discriminate E.
Defined.

(** The theorem of C2 at the sample mosaic of stacks. *)
Lemma gen_tile_config_z_zero_witness :
  exists lines,
    gen_tile_config Sample.version render_f Sample.stack
      = Ok (preamble Sample.version "3" ++ lines) /\
    Forall2 (z_zero render_f Sample.stack) (subvol Sample.stack) lines.
Proof.
  pose proof (gen_tile_config_z_zero Sample.version render_f Sample.stack
                _ _ eq_refl ltac:(cbn; lia) ltac:(cbn; lia)) as H.
  destruct (gen_tile_config Sample.version render_f Sample.stack)
    as [conf | e] eqn:E.
  - destruct H as (lines & -> & Hall).
    exists lines. split; [reflexivity | exact Hall].
  - vm_compute in E. discriminate E.
Defined.

(** The theorem of C10 at the flat sample mosaic, whose second tile lies
    outside the mosaic's directory. *)
Lemma gen_tile_config_relative_path_witness :
  exists lines,
    gen_tile_config Sample.version render_f Sample.flat
      = Ok (preamble Sample.version "2" ++ lines) /\
    Forall2 (relative_path_line Sample.flat) (subvol Sample.flat) lines.
Proof.
  pose proof (gen_tile_config_relative_path Sample.version render_f Sample.flat
                _ _ eq_refl) as H.
  destruct (gen_tile_config Sample.version render_f Sample.flat)
    as [conf | e] eqn:E.
  - destruct H as (lines & -> & Hall).
    exists lines. split; [reflexivity | exact Hall].
  - vm_compute in E. discriminate E.
Defined.

(** The theorem of C4 at the sample plugin directory. *)
Lemma locate_templates_lexically_last_witness :
  exists best,
    In best ["foo-1.0.0.jar"; "other.jar"; "foo-1.2.0.jar"] /\
    startswith best "foo" = true /\
    (forall c, In c ["foo-1.0.0.jar"; "other.jar"; "foo-1.2.0.jar"] ->
       startswith c "foo" = true -> String.leb c best = true) /\
    locate_templates Sample.module_file Sample.exists_ Sample.listdir
      "/plugins/foo.jar" = Ok (join "/plugins" best).
Proof.
  exact (locate_templates_lexically_last Sample.module_file Sample.exists_
           Sample.listdir "/plugins/foo.jar"
           ["foo-1.0.0.jar"; "other.jar"; "foo-1.2.0.jar"]
           eq_refl eq_refl eq_refl eq_refl).
Defined.

(** The theorem of C8 at the sample experiment: the whole macro. *)
Lemma gen_stitching_macro_code_order_witness :
  gen_stitching_macro_code Sample.version Sample.module_file Sample.exists_
    Sample.listdir Sample.readtxt (Sample.experiment [Sample.stack])
    "stitch" "C:\data\exp" "/tpl" [("rows", "3")] =
  Ok [ "// Generated by micrometa.imagej (1.0)." +:+ nl +:+ nl;
       begin_head;
       "hidden = false;" +:+ nl;
       end_head;
       nl;
       "name = " +:+ dq +:+ "exp" +:+ dq +:+ ";" +:+ nl;
       "input_dir=" +:+ dq +:+ "C:\\data\\exp" +:+ dq +:+ ";" +:+ nl;
       "use_batch_mode = true;" +:+ nl;
       "rows = 3;" +:+ nl;
       "compute = false;" +:+ nl;
       nl;
       begin_body;
       "run_stitching();" +:+ nl;
       end_body ].
Proof.
  exact (gen_stitching_macro_code_order Sample.version Sample.module_file
           Sample.exists_ Sample.listdir Sample.readtxt
           (Sample.experiment [Sample.stack]) "stitch" "C:\data\exp" "/tpl"
           [("rows", "3")] "/tpl" ["hidden = false;" +:+ nl]
           ["run_stitching();" +:+ nl] Sample.stack []
           eq_refl eq_refl eq_refl eq_refl).
Defined.

(** The theorem of C6 at the sample experiment, whose overlap is 2.5. *)
Lemma gen_stitching_macro_code_compute_witness :
  exists ijm,
    gen_stitching_macro_code Sample.version Sample.module_file Sample.exists_
      Sample.listdir Sample.readtxt (Sample.experiment [Sample.stack])
      "stitch" "/data/exp" "/tpl" [] = Ok ijm /\
    In ("compute = false;" +:+ nl) ijm.
Proof.
  destruct (gen_stitching_macro_code_compute Sample.version Sample.module_file
              Sample.exists_ Sample.listdir Sample.readtxt
              (Sample.experiment [Sample.stack]) "stitch" "/data/exp" "/tpl"
              [] "/tpl" ["hidden = false;" +:+ nl]
              ["run_stitching();" +:+ nl] Sample.stack []
              eq_refl eq_refl eq_refl eq_refl)
    as (ijm & inserted & Hgen & _ & _ & _ & Hin).
  exists ijm. split; [exact Hgen |].
  apply Hin; [| reflexivity].
  cbn. intros [H | [H | []]]; discriminate H.
Defined.

(** The amended C7 at the sample data, with a path of both separators. *)
Lemma generators_path_separators_witness :
  (exists lines,
     gen_tile_config Sample.version render_f Sample.flat
       = Ok (preamble Sample.version "2" ++ lines) /\
     Forall2 (forward_slash_line Sample.flat) (subvol Sample.flat) lines) /\
  exists ijm line,
    gen_stitching_macro_code Sample.version Sample.module_file Sample.exists_
      Sample.listdir Sample.readtxt (Sample.experiment [Sample.stack])
      "stitch" "C:\data/exp" "/tpl" [] = Ok ijm /\
    In line ijm /\
    line = "input_dir=" +:+ dq +:+ "C:\\data/exp" +:+ dq +:+ ";" +:+ nl /\
    count_char backslash line = 2 /\
    count_char slash line = 1.
Proof.
  destruct (generators_path_separators Sample.version Sample.module_file
              render_f Sample.exists_ Sample.listdir Sample.readtxt
              Sample.flat _ _ (Sample.experiment [Sample.stack])
              "stitch" "C:\data/exp" "/tpl" [] "/tpl"
              ["hidden = false;" +:+ nl] ["run_stitching();" +:+ nl]
              Sample.stack [] eq_refl eq_refl eq_refl eq_refl eq_refl)
    as [Htile Hmacro].
  split; [| exact Hmacro].
  destruct (gen_tile_config Sample.version render_f Sample.flat)
    as [conf | e] eqn:E.
  - destruct Htile as (lines & -> & Hall).
    exists lines. split; [reflexivity | exact Hall].
  - vm_compute in E. discriminate E.
Defined.

(** The amended C3 at ten mosaics numbered from 0. *)
Lemma write_all_tile_configs_names_witness :
  exists w',
    write_all_tile_configs Sample.version (fun _ => true) render_f
      (Sample.numbered 10) "" (Sample.disk 4000) = (w', Ok tt) /\
    handles w' = [] /\
    padlen_of (Sample.numbered 10) = 2.
Proof.
  destruct (write_all_tile_configs_names Sample.version (fun _ => true) render_f
              (Sample.numbered 10) "" (Sample.disk 4000))
    as (w' & Hrun & _ & _ & Hh & Hpad & _).
  - vm_compute. reflexivity.
  - apply Nat.leb_le. vm_compute. reflexivity.
  - exists w'. split; [exact Hrun |]. split; [exact Hh |]. reflexivity.
Defined.

(** The theorem of C9 at a mosaic of 4800 tiles, whose configuration has
    more bytes than the buffer and the device take. *)
Lemma write_tile_config_leaves_file_open_witness :
  exists (w' : world) (p : string),
    write_tile_config Sample.version (fun _ => true) render_f
      (Sample.grid 4800) "" 2 (Sample.disk 4096) = (w', Raise IOError) /\
    handles w' = [{| hname := "/data/exp/mosaic_00.txt"; pending := p |}].
Proof.
  destruct (write_tile_config_leaves_file_open Sample.version (fun _ => true)
              render_f (Sample.grid 4800) "" 2 (Sample.disk 4096)) as [H _].
  - vm_compute. reflexivity.
  - apply Nat.ltb_lt. vm_compute. reflexivity.
  - exact H.
Defined.

(** The same call, computed: of the 162234 bytes of the configuration the
    4096 that fit are on the disk, and the file is open. *)
Example write_tile_config_beyond_buffer :
  let failed := write_tile_config Sample.version (fun _ => true) render_f
                  (Sample.grid 4800) "" 2 (Sample.disk 4096) in
  snd failed = Raise IOError /\
  map hname (handles (fst failed)) = ["/data/exp/mosaic_00.txt"] /\
  option_map (fun s => N.of_nat (len s))
    (files (fst failed) !! "/data/exp/mosaic_00.txt") = Some 4096%N /\
  N.of_nat (len (config_text Sample.version render_f (Sample.grid 4800)))
    = 162234%N.
Proof. vm_compute. repeat split; reflexivity. Qed.

(** * Further properties of the module *)

(** ** More on strings *)

Lemma drop_app (a b : string) : drop (len a) (a +:+ b) = b.
Proof. rewrite <- (Nat.add_0_r (len a)). now rewrite drop_app_plus. Qed.

Lemma startswith_app (a b : string) : startswith (a +:+ b) a = true.
Proof.
  unfold startswith. induction a as [|c a IH]; simpl.
  - destruct b; reflexivity.
  - destruct (ascii_dec c c) as [_ | Hne]; [exact IH | congruence].
Qed.

(** A suffix of the second part is a suffix of the whole. *)
Lemma endswith_app (a b p : string) :
  endswith b p = true -> endswith (a +:+ b) p = true.
Proof.
  unfold endswith. intros H. apply andb_true_iff in H. destruct H as [Hlen Heq].
  apply Nat.leb_le in Hlen. rewrite len_app.
  replace (len a + len b - len p)%nat with (len a + (len b - len p))%nat by lia.
  rewrite drop_app_plus, Heq.
  assert ((len p <=? len a + len b)%nat = true) as -> by (apply Nat.leb_le; lia).
  reflexivity.
Qed.

Lemma endswith_nl (a : string) : endswith (a +:+ nl) nl = true.
Proof. apply endswith_app. reflexivity. Qed.

Lemma lower_app (a b : string) : lower (a +:+ b) = lower a +:+ lower b.
Proof. induction a as [|c a IH]; simpl; [reflexivity | now rewrite IH]. Qed.

(** What is cut off at the right can be cancelled. *)
Lemma app_inv_tail_s (s t u : string) : s +:+ u = t +:+ u -> s = t.
Proof.
  revert t. induction s as [|c s IH]; intros [|d t] H.
  - reflexivity.
  - exfalso. apply (f_equal len) in H. rewrite !len_app in H.
    unfold len in H. simpl in H. lia.
  - exfalso. apply (f_equal len) in H. rewrite !len_app in H.
    unfold len in H. simpl in H. lia.
  - simpl in H. injection H as -> H. f_equal. apply IH. exact H.
Qed.

Lemma app_inv_head_s (s t u : string) : s +:+ t = s +:+ u -> t = u.
Proof.
  induction s as [|c s IH]; simpl; intros H; [exact H |].
  injection H as H. apply IH. exact H.
Qed.

(** What holds of every related pair holds of each side. *)
Lemma Forall2_forallb {A B} (R : A -> B -> Prop) (p : A -> bool)
    (l : list A) (l' : list B) :
  Forall2 R l l' -> (forall a b, R a b -> p a = true) -> forallb p l = true.
Proof.
  intros H Hp. induction H as [| a b l l' Hab _ IH]; [reflexivity |].
  cbn [forallb]. now rewrite (Hp a b Hab), IH.
Qed.

Lemma Forall2_Forall_r {A B} (R : A -> B -> Prop) (Q : B -> Prop)
    (l : list A) (l' : list B) :
  Forall2 R l l' -> (forall a b, R a b -> Q b) -> Forall Q l'.
Proof.
  intros H HQ. induction H as [| a b l l' Hab _ IH]; constructor;
    [apply (HQ a b Hab) | exact IH].
Qed.

(** ** Tile configurations: outcome and shape *)

Section TileConfigMore.

Variable version : string.
Variable format_f : float -> string.

Lemma coordinate_line_nl (path : string) (coords : list string) :
  endswith (coordinate_line path coords) nl = true.
Proof. unfold coordinate_line. repeat apply endswith_app. reflexivity. Qed.

Lemma preamble_nl (dim : string) :
  Forall (fun line => endswith line nl = true) (preamble version dim).
Proof.
  unfold preamble.
  repeat (constructor; [repeat apply endswith_app; reflexivity |]).
  constructor.
Qed.

(** X1. [gen_tile_config] raises [IndexError] on a mosaic without
    sub-volumes; on any other it returns exactly when every position has as
    many components as the format chosen from the first sub-volume takes,
    and raises [TypeError] when one does not. *)
Theorem gen_tile_config_outcome (m : MosaicData) :
  match subvol m with
  | [] => gen_tile_config version format_f m = Raise IndexError
  | vol0 :: _ =>
      if forallb (fun vol =>
                    (length (position_relative vol) =? coord_arity vol0)%nat)
           (subvol m)
      then exists conf, gen_tile_config version format_f m = Ok conf
      else gen_tile_config version format_f m = Raise TypeError
  end.
Proof.
  destruct (subvol m) as [|vol0 rest] eqn:Hvol.
  - apply gen_tile_config_empty. exact Hvol.
  - rewrite <- Hvol.
    pose proof (gen_tile_config_lines version format_f m vol0 rest Hvol) as Hc.
    destruct (forallb _ (subvol m)) eqn:Hall.
    + destruct (gen_tile_config version format_f m) as [conf | e];
        [exists conf; reflexivity |].
      destruct Hc as [_ Hex]. apply Exists_exists in Hex.
      destruct Hex as (vol & Hin & Hne). rewrite forallb_forall in Hall.
      apply list_elem_of_In, Hall, Nat.eqb_eq in Hin. contradiction.
    + destruct (gen_tile_config version format_f m) as [conf | e];
        [| destruct Hc as [-> _]; reflexivity].
      destruct Hc as (lines & _ & Hlines). exfalso.
      rewrite (Forall2_forallb _ _ _ _ Hlines) in Hall; [discriminate Hall |].
      intros vol line [Hlen _]. apply Nat.eqb_eq. exact Hlen.
Qed.

(** X2. A configuration that is returned has four lines and then one line
    per sub-volume, and each of its items ends in a newline, so that
    [writelines] puts each coordinate line on a line of its own. *)
Theorem gen_tile_config_shape (m : MosaicData) (conf : list string) :
  gen_tile_config version format_f m = Ok conf ->
  length conf = 4 + length (subvol m) /\
  Forall (fun line => endswith line nl = true) conf.
Proof.
  intros Hconf. destruct (subvol m) as [|vol0 rest] eqn:Hvol.
  - rewrite (gen_tile_config_empty version format_f m Hvol) in Hconf.
    discriminate Hconf.
  - rewrite <- Hvol.
    pose proof (gen_tile_config_lines version format_f m vol0 rest Hvol) as Hc.
    rewrite Hconf in Hc. destruct Hc as (lines & -> & Hlines). split.
    + rewrite length_app. apply Forall2_length in Hlines. rewrite Hlines.
      reflexivity.
    + apply Forall_app. split; [apply preamble_nl |].
      apply (Forall2_Forall_r _ _ _ _ Hlines).
      intros vol line [_ ->]. apply coordinate_line_nl.
Qed.

(** X3. A sub-volume stored under the mosaic's storage path, at that path
    followed by [rel], is shown as [rel] with forward slashes: stripping
    the storage path undoes the concatenation. *)
Theorem tile_line_strips_storage_path
    (m : MosaicData) (vol0 vol : SubVolume) (rel : string) :
  storage_full vol = storage_path m +:+ rel ->
  length (position_relative vol) = coord_arity vol0 ->
  tile_line format_f m (coord_format vol0) vol =
    Ok (coordinate_line (replace backslash "/" rel)
          (coord_texts format_f vol0 vol)).
Proof.
  intros Hfull Hlen. rewrite tile_line_spec.
  apply Nat.eqb_eq in Hlen. rewrite Hlen. unfold shown_path.
  rewrite Hfull, startswith_app, drop_app. reflexivity.
Qed.

End TileConfigMore.

(** ** File names: padding, reading back, collisions *)

Lemma len_repeat_char (c : ascii) (n : nat) : len (repeat_char c n) = n.
Proof.
  unfold len, repeat_char. induction n as [|n IH]; simpl; [reflexivity | now rewrite IH].
Qed.

Lemma uint_of_string_zeros (k : nat) (d : Decimal.uint) :
  NilEmpty.uint_of_string (repeat_char "0" k +:+ NilEmpty.string_of_uint d)
    = Some (Nat.iter k Decimal.D0 d).
Proof.
  unfold repeat_char. induction k as [|k IH]; simpl.
  - apply NilEmpty.usu.
  - unfold repeat_char in IH. rewrite IH. reflexivity.
Qed.

Lemma of_uint_zeros (k : nat) (d : Decimal.uint) :
  N.of_uint (Nat.iter k Decimal.D0 d) = N.of_uint d.
Proof. induction k as [|k IH]; simpl; [reflexivity | exact IH]. Qed.

(** A text of digits is read as a number without sign. *)
Lemma int_of_digits (s : string) (d : Decimal.uint) :
  NilEmpty.uint_of_string s = Some d ->
  NilEmpty.int_of_string s = Some (Decimal.Pos d).
Proof.
  destruct s as [|a s]; simpl; intros H.
  - injection H as <-. reflexivity.
  - assert (Ascii.eqb a "-" = false) as ->.
    { destruct (NilEmpty.uint_of_string s) as [d' |]; [| discriminate H].
      apply uint_of_char_spec in H.
      repeat (destruct H as [[-> _] | H]; [reflexivity |]).
      destruct H as [-> _]. reflexivity. }
    rewrite H. reflexivity.
Qed.

(** The index is read back from its text, whatever the padding. *)
Lemma read_int_fmt_int (w : nat) (z : Z) : read_int (fmt_int true w z) = Some z.
Proof.
  unfold read_int, fmt_int, str_N.
  set (k := (w - _)%nat). clearbody k.
  destruct (z <? 0)%Z eqn:Hneg.
  - change ("-" +:+ repeat_char "0" k +:+ NilEmpty.string_of_uint (N.to_uint (Z.abs_N z)))
      with (String "-" (repeat_char "0" k
                          +:+ NilEmpty.string_of_uint (N.to_uint (Z.abs_N z)))).
    cbn [NilEmpty.int_of_string]. rewrite Ascii.eqb_refl, uint_of_string_zeros.
    cbn [option_map Z.of_int]. unfold Z.of_uint.
    change (Pos.of_uint ?d) with (N.of_uint d).
    rewrite of_uint_zeros, DecimalN.Unsigned.of_to. f_equal. lia.
  - change ("" +:+ repeat_char "0" k +:+ NilEmpty.string_of_uint (N.to_uint (Z.abs_N z)))
      with (repeat_char "0" k +:+ NilEmpty.string_of_uint (N.to_uint (Z.abs_N z))).
    rewrite (int_of_digits _ _ (uint_of_string_zeros k _)).
    cbn [option_map Z.of_int]. unfold Z.of_uint.
    change (Pos.of_uint ?d) with (N.of_uint d).
    rewrite of_uint_zeros, DecimalN.Unsigned.of_to. f_equal. lia.
Qed.

Lemma fmt_int_inj (w : nat) (z1 z2 : Z) :
  fmt_int true w z1 = fmt_int true w z2 -> z1 = z2.
Proof.
  intros H. apply (f_equal read_int) in H. rewrite !read_int_fmt_int in H.
  now injection H.
Qed.

(** In one directory, the name tells the index. *)
Lemma tile_config_name_inj (padlen : nat) (outdir : string) (m1 m2 : MosaicData) :
  target_dir outdir m1 = target_dir outdir m2 ->
  tile_config_name padlen outdir m1 = tile_config_name padlen outdir m2 ->
  supplement_index m1 = supplement_index m2.
Proof.
  unfold tile_config_name. fold (target_dir outdir m1) (target_dir outdir m2).
  intros <-. set (d := target_dir outdir m1). unfold join.
  change (startswith ("mosaic_" +:+ ?x) "/") with false. cbv iota.
  intros H. apply (fmt_int_inj padlen).
  destruct ((len d =? 0)%nat || endswith d "/").
  - apply app_inv_head_s, (app_inv_head_s "mosaic_"), app_inv_tail_s in H.
    exact H.
  - apply app_inv_head_s, (app_inv_head_s "/"), (app_inv_head_s "mosaic_"),
      app_inv_tail_s in H.
    exact H.
Qed.

Lemma NoDup_map_eq {A B} (f : A -> B) (l : list A) (a b : A) :
  NoDup (map f l) -> In a l -> In b l -> f a = f b -> a = b.
Proof.
  induction l as [|x l IH]; [intros _ [] |].
  cbn [map]. intros Hnd Ha Hb Hf. apply NoDup_cons in Hnd.
  destruct Hnd as [Hx Hnd].
  destruct Ha as [<- | Ha], Hb as [<- | Hb].
  - reflexivity.
  - exfalso. apply Hx. rewrite Hf. apply list_elem_of_In, in_map, Hb.
  - exfalso. apply Hx. rewrite <- Hf. apply list_elem_of_In, in_map, Ha.
  - apply IH; assumption.
Qed.

Section FileNames.

Variable version : string.
Variable can_open : string -> bool.
Variable format_f : float -> string.

(** X4. For an index that is not negative the file name is [mosaic_],
    zeros, the digits of the index and [.txt]: the text of the index has
    [padlen] characters, or as many as the index has digits when these are
    more (so none is added under the default [padlen] of 0), and reads back
    as the index. *)
Theorem tile_config_fname_zero_padded
    (m : MosaicData) (outdir : string) (padlen : nat) :
  (0 <= supplement_index m)%Z ->
  exists text,
    tile_config_fname m outdir padlen
      = Ok (join (target_dir outdir m) ("mosaic_" +:+ text +:+ ".txt")) /\
    text = repeat_char "0" (padlen - len (str_N (Z.to_N (supplement_index m))))
             +:+ str_N (Z.to_N (supplement_index m)) /\
    len text = Nat.max padlen (len (str_N (Z.to_N (supplement_index m)))) /\
    read_int text = Some (supplement_index m).
Proof.
  intros Hidx. exists (fmt_int true padlen (supplement_index m)).
  split; [apply tile_config_fname_eq |].
  split; [apply fmt_int_zero_padded; exact Hidx |].
  split; [| apply read_int_fmt_int].
  rewrite (fmt_int_zero_padded _ _ Hidx), len_app, len_repeat_char. lia.
Qed.

(** X5. In one directory, mosaics with different indices get different
    file names, whatever the padding. *)
Theorem tile_config_fname_distinct
    (m1 m2 : MosaicData) (outdir : string) (padlen : nat) :
  target_dir outdir m1 = target_dir outdir m2 ->
  supplement_index m1 <> supplement_index m2 ->
  tile_config_fname m1 outdir padlen <> tile_config_fname m2 outdir padlen.
Proof.
  intros Hdir Hidx H. rewrite !tile_config_fname_eq in H. injection H as H.
  apply Hidx. exact (tile_config_name_inj padlen outdir m1 m2 Hdir H).
Qed.

(** X6. When the mosaics of an experiment have pairwise different indices
    and are written to one directory, [write_all_tile_configs] leaves the
    configuration of every mosaic in the file of that mosaic: no file is
    overwritten by another mosaic. *)
Theorem write_all_tile_configs_own_file
    (experiment : MosaicExperiment) (outdir : string) (w : world) :
  (forall m1 m2, In m1 (mosaics experiment) -> In m2 (mosaics experiment) ->
     target_dir outdir m1 = target_dir outdir m2) ->
  NoDup (map supplement_index (mosaics experiment)) ->
  forallb (writable version format_f can_open (padlen_of experiment) outdir)
    (mosaics experiment) = true ->
  total_bytes version format_f (mosaics experiment) <= free w ->
  exists w',
    write_all_tile_configs version can_open format_f experiment outdir w
      = (w', Ok tt) /\
    forall m, In m (mosaics experiment) ->
      files w' !! tile_config_name (padlen_of experiment) outdir m
        = Some (config_text version format_f m).
Proof.
  intros Hdir Hnd Hall Hroom.
  destruct (for_each_write_tile_config version can_open format_f
              (padlen_of experiment) outdir (mosaics experiment) w Hall Hroom)
    as (w' & Hrun & _ & Hin & _).
  exists w'. split; [exact Hrun |].
  intros m Hm. destruct (Hin m Hm) as (m' & Hm' & Hname & Hfile).
  rewrite Hfile. do 2 f_equal.
  apply (NoDup_map_eq supplement_index (mosaics experiment)); try assumption.
  apply (tile_config_name_inj (padlen_of experiment) outdir);
    [apply Hdir; assumption | exact Hname].
Qed.

End FileNames.

(** ** Writing: what is left on the disk *)


Section WritingMore.

Variable version : string.
Variable can_open : string -> bool.
Variable format_f : float -> string.

Lemma write_tile_config_no_config (m : MosaicData) (outdir : string)
    (padlen : nat) (w : world) (e : exc) :
  gen_tile_config version format_f m = Raise e ->
  write_tile_config version can_open format_f m outdir padlen w = (w, Raise e).
Proof. intros H. unfold write_tile_config, bind, lift. now rewrite H. Qed.

Lemma write_tile_config_not_opened (m : MosaicData) (outdir : string)
    (padlen : nat) (w : world) (config : list string) :
  gen_tile_config version format_f m = Ok config ->
  can_open (tile_config_name padlen outdir m) = false ->
  write_tile_config version can_open format_f m outdir padlen w
    = (w, Raise IOError).
Proof.
  intros Hconf Hopen. unfold write_tile_config, bind, lift.
  rewrite Hconf, tile_config_fname_eq. unfold open_w. now rewrite Hopen.
Qed.

(** X7. [write_tile_config] generates the configuration before it opens
    the file: when the configuration cannot be generated, or the file
    cannot be opened, it leaves the disk as it was (no file is created or
    emptied) and raises the generator's exception, or [IOError]. *)
Theorem write_tile_config_untouched (m : MosaicData) (outdir : string)
    (padlen : nat) (w : world) :
  writable version format_f can_open padlen outdir m = false ->
  write_tile_config version can_open format_f m outdir padlen w =
    (w, match gen_tile_config version format_f m with
        | Raise e => Raise e
        | Ok _ => Raise IOError
        end).
Proof.
  unfold writable. intros H.
  destruct (gen_tile_config version format_f m) as [config | e] eqn:Hconf.
  - cbn [is_ok andb] in H. exact (write_tile_config_not_opened m outdir padlen w
                                     config Hconf H).
  - apply write_tile_config_no_config. exact Hconf.
Qed.


End WritingMore.

Section MacroFile.

Variable can_open : string -> bool.

(** What [write_stitching_macro] does, in each case. *)
Lemma write_stitching_macro_eq
    (code : list string) (fname dname : string) (w : world) :
  write_stitching_macro can_open code fname dname w =
    if can_open (join dname fname) then
      let room := free w + len (default "" (files w !! join dname fname)) in
      if (len (joinlines code) <=? room)%nat then
        ({| files := <[join dname fname := joinlines code]> (files w);
            handles := handles w;
            free := room - len (joinlines code);
            bufsize := bufsize w |}, Ok tt)
      else
        ({| files := <[join dname fname := take room (joinlines code)]> (files w);
            handles := handles w;
            free := 0;
            bufsize := bufsize w |}, Raise IOError)
    else (w, Raise IOError).
Proof.
  unfold write_stitching_macro, with_open, open_w.
  destruct (can_open (join dname fname)); [| reflexivity].
  cbv zeta.
  destruct (len (joinlines code)
            <=? free w + len (default "" (files w !! join dname fname)))%nat
    eqn:Hroom.
  - apply Nat.leb_le in Hroom.
    pose proof (writelines_close_ok (join dname fname) code
                  {| files := <[join dname fname := ""]> (files w);
                     handles := {| hname := join dname fname; pending := "" |}
                                  :: handles w;
                     free := free w
                             + len (default "" (files w !! join dname fname));
                     bufsize := bufsize w |}
                  "" "" (handles w) (lookup_insert_eq _ _ _) eq_refl Hroom)
      as Hrun.
    unfold bind in Hrun.
    destruct (writelines (join dname fname) code _) as [w2 [[] | e]].
    + rewrite Hrun. cbn [files handles free bufsize String.append].
      now rewrite insert_insert_eq.
    + discriminate Hrun.
  - apply Nat.leb_gt in Hroom.
    destruct (writelines_close_full (join dname fname) code
                {| files := <[join dname fname := ""]> (files w);
                   handles := {| hname := join dname fname; pending := "" |}
                                :: handles w;
                   free := free w
                           + len (default "" (files w !! join dname fname));
                   bufsize := bufsize w |}
                "" "" (handles w) (lookup_insert_eq _ _ _) eq_refl Hroom)
      as (w2 & r & rc & Hrun & Hclose & Hres).
    rewrite Hrun, Hclose.
    cbn [files handles free bufsize String.append].
    rewrite insert_insert_eq.
    destruct rc as [[] | e]; [rewrite Hres; reflexivity |].
    now inversion Hres.
Qed.


(** X9. [write_stitching_macro] writes the file [fname] of the directory
    [dname].  The room is what the device has left and what the old
    content of the file gives back.  When the file opens and the code
    fits the room, the file holds the code lines, joined; when it does not
    fit, the file holds the bytes that fit and the call raises [IOError];
    when the file does not open, nothing changes.  In every case the files
    that are open afterwards are those that were open before, and no other
    file changes. *)
Theorem write_stitching_macro_outcome
    (code : list string) (fname dname : string) (w : world) :
  exists (w' : world) (r : result unit),
    write_stitching_macro can_open code fname dname w = (w', r) /\
    handles w' = handles w /\
    (forall q, q <> join dname fname -> files w' !! q = files w !! q) /\
    if can_open (join dname fname) then
      let room := free w + len (default "" (files w !! join dname fname)) in
      if (len (joinlines code) <=? room)%nat then
        files w' !! join dname fname = Some (joinlines code) /\ r = Ok tt
      else
        files w' !! join dname fname = Some (take room (joinlines code)) /\
        r = Raise IOError
    else w' = w /\ r = Raise IOError.
Proof.
  rewrite write_stitching_macro_eq.
  destruct (can_open (join dname fname)).
  - cbv zeta.
    destruct (len (joinlines code)
              <=? free w + len (default "" (files w !! join dname fname)))%nat;
      eexists _, _; (split; [reflexivity |]); cbn [files handles];
      (split; [reflexivity |]);
      (split; [intros q Hq; now apply lookup_insert_ne |]);
      (split; [apply lookup_insert_eq | reflexivity]).
  - exists w, (Raise IOError). repeat split; reflexivity.
Qed.

End MacroFile.

(** A macro of 14000 bytes on a device with room for 4096: the bytes that
    fit are in the file, which is closed. *)
Example write_stitching_macro_partial :
  let code := repeat ("0123456789abc" +:+ nl) 1000 in
  let done := write_stitching_macro (fun _ => true) code "stitch.ijm" "/out"
                (Sample.disk 4096) in
  snd done = Raise IOError /\
  handles (fst done) = [] /\
  option_map (fun s => N.of_nat (len s))
    (files (fst done) !! "/out/stitch.ijm") = Some 4096%N.
Proof. vm_compute. repeat split; reflexivity. Qed.

(** Writing a file again: the 3000 bytes of the old content are given
    back, and a macro of 3500 bytes fits a device with 1000 bytes left. *)
Example write_stitching_macro_rewrite :
  let code := repeat ("0123456789abc" +:+ nl) 250 in
  let w := {| files := {[ "/out/stitch.ijm" := joinlines (repeat "xyz" 1000) ]};
              handles := []; free := 1000; bufsize := 8 * 1024 |} in
  let done := write_stitching_macro (fun _ => true) code "stitch.ijm" "/out" w in
  snd done = Ok tt /\
  handles (fst done) = [] /\
  files (fst done) !! "/out/stitch.ijm" = Some (joinlines code) /\
  free (fst done) = 500.
Proof. vm_compute. repeat split; reflexivity. Qed.


(** ** Locating the templates: the default, the result, the failures *)

Lemma endswith_app_eq (a b p : string) :
  len p <= len b -> endswith (a +:+ b) p = endswith b p.
Proof.
  intros Hlen. unfold endswith. rewrite len_app.
  replace (len a + len b - len p)%nat with (len a + (len b - len p))%nat by lia.
  rewrite drop_app_plus.
  assert ((len p <=? len a + len b)%nat = true) as -> by (apply Nat.leb_le; lia).
  assert ((len p <=? len b)%nat = true) as -> by (apply Nat.leb_le; lia).
  reflexivity.
Qed.

(** Neither default location is a jar. *)
Lemma ijm_templates_not_jar (d : string) :
  endswith (lower (join d "ijm_templates")) ".jar" = false /\
  endswith (lower (join d "ijm_templates" +:+ ".zip")) ".jar" = false.
Proof.
  unfold join. change (startswith "ijm_templates" "/") with false. cbv iota.
  destruct ((len d =? 0)%nat || endswith d "/").
  - rewrite app_assoc_s, !lower_app. split.
    + rewrite endswith_app_eq; [reflexivity | cbn; lia].
    + rewrite endswith_app_eq; [reflexivity | cbn; lia].
  - rewrite !app_assoc_s, !lower_app. split.
    + rewrite endswith_app_eq; [reflexivity | cbn; lia].
    + rewrite endswith_app_eq; [reflexivity | cbn; lia].
Qed.

Section TemplatesMore.

Variable module_file : string.
Variable exists_ : string -> bool.
Variable listdir : string -> result (list string).

(** X10. Without a path, the templates are looked for beside the module
    file: in the directory [ijm_templates] when it exists, else in
    [ijm_templates.zip] when that exists, else the call raises [IOError];
    the directory of the module is never listed. *)
Theorem locate_templates_default :
  locate_templates module_file exists_ listdir "" =
    if exists_ (join (dirname module_file) "ijm_templates")
    then Ok (join (dirname module_file) "ijm_templates")
    else if exists_ (join (dirname module_file) "ijm_templates" +:+ ".zip")
         then Ok (join (dirname module_file) "ijm_templates" +:+ ".zip")
         else Raise IOError.
Proof.
  unfold locate_templates. cbn [String.eqb]. cbv zeta.
  destruct (ijm_templates_not_jar (dirname module_file)) as [Hdir Hzip].
  destruct (exists_ (join (dirname module_file) "ijm_templates")) eqn:E;
    cbn [negb].
  - rewrite Hdir. cbn [rbind]. rewrite E. reflexivity.
  - rewrite Hzip. cbn [rbind].
    destruct (exists_ (join (dirname module_file) "ijm_templates" +:+ ".zip"));
      reflexivity.
Qed.

(** X11. A location that [locate_templates] returns exists, according to
    [exists]: the last check covers the default, a given path and a chosen
    jar alike. *)
Theorem locate_templates_result_exists (tplpath location : string) :
  locate_templates module_file exists_ listdir tplpath = Ok location ->
  exists_ location = true.
Proof.
  unfold locate_templates. cbv zeta.
  match goal with
  | |- rbind ?r _ = _ -> _ => destruct r as [t | e]
  end; cbn [rbind]; [| discriminate].
  destruct (exists_ t) eqn:E; cbn [negb]; [| discriminate].
  intros [= <-]. exact E.
Qed.

(** X12. For a path ending in [.jar] in any letter case, the path itself is
    not checked.  A returned location is a candidate of the directory, not
    below any other, and exists.  The failures are: the exception of
    [listdir]; [IndexError] when no name of the directory starts with the
    base name; [IOError] when the last candidate does not exist. *)
Theorem locate_templates_jar_outcome (tplpath : string) :
  endswith (lower tplpath) ".jar" = true ->
  match locate_templates module_file exists_ listdir tplpath with
  | Ok location =>
      exists entries best,
        listdir (dirname tplpath) = Ok entries /\
        In best (jar_candidates tplpath entries) /\
        (forall c, In c (jar_candidates tplpath entries) ->
           String.leb c best = true) /\
        location = join (dirname tplpath) best /\
        exists_ location = true
  | Raise e =>
      listdir (dirname tplpath) = Raise e \/
      exists entries,
        listdir (dirname tplpath) = Ok entries /\
        ((jar_candidates tplpath entries = [] /\ e = IndexError) \/
         (exists best,
            In best (jar_candidates tplpath entries) /\
            (forall c, In c (jar_candidates tplpath entries) ->
               String.leb c best = true) /\
            exists_ (join (dirname tplpath) best) = false /\
            e = IOError))
  end.
Proof.
  intros Hjar. rewrite (locate_templates_jar module_file exists_ listdir tplpath Hjar).
  destruct (listdir (dirname tplpath)) as [entries | e];
    [| left; reflexivity].
  cbn [rbind].
  destruct (jar_candidates tplpath entries) as [|c0 cs] eqn:Hc.
  - right. exists entries. split; [reflexivity |]. left.
    split; [exact Hc | reflexivity].
  - destruct (last_item_sort (c0 :: cs)) as (best & -> & Hin & Hmax);
      [discriminate |].
    cbn [rbind]. destruct (exists_ (join (dirname tplpath) best)) eqn:E.
    + exists entries, best. rewrite Hc. repeat split; assumption.
    + right. exists entries. split; [reflexivity |]. right.
      exists best. rewrite Hc. repeat split; assumption.
Qed.

End TemplatesMore.

(** ** Stitching macros: failures, and the input path *)

(** Doubling a character can be undone. *)
Lemma replace_double_inj (c : ascii) (p q : string) :
  replace c (String c (String c "")) p = replace c (String c (String c "")) q ->
  p = q.
Proof.
  revert q. induction p as [|a p IH]; intros [|b q]; simpl.
  - reflexivity.
  - destruct (Ascii.eqb b c); discriminate.
  - destruct (Ascii.eqb a c); discriminate.
  - destruct (Ascii.eqb a c) eqn:Ea, (Ascii.eqb b c) eqn:Eb; simpl; intros H.
    + apply Ascii.eqb_eq in Ea, Eb. subst a b.
      injection H as H. f_equal. apply IH. exact H.
    + injection H as Hb _. subst b. rewrite Ascii.eqb_refl in Eb. discriminate Eb.
    + injection H as Ha _. subst a. rewrite Ascii.eqb_refl in Ea. discriminate Ea.
    + injection H as -> H. f_equal. apply IH. exact H.
Qed.

Section MacroMore.

Variable version : string.
Variable module_file : string.
Variable exists_ : string -> bool.
Variable listdir : string -> result (list string).
Variable readtxt : string -> string -> result (list string).

(** X13. [gen_stitching_macro_code] returns a macro exactly when the
    templates are located, the head and the body template are read from
    that location and the experiment has a mosaic.  It fails, in this order
    of precedence, with the exception of [locate_templates], with that of
    reading the head template, with [IndexError] for an experiment without
    mosaics, or with the exception of reading the body template. *)
Theorem gen_stitching_macro_code_outcome (experiment : MosaicExperiment)
    (pfx path tplpath : string) (opts : list (string * string)) :
  match gen_stitching_macro_code version module_file exists_ listdir readtxt
          experiment pfx path tplpath opts with
  | Ok ijm =>
      exists templates head mosaic0 rest body,
        locate_templates module_file exists_ listdir tplpath = Ok templates /\
        readtxt (pfx +:+ "_head.ijm") templates = Ok head /\
        mosaics experiment = mosaic0 :: rest /\
        readtxt (pfx +:+ "_body.ijm") templates = Ok body
  | Raise e =>
      locate_templates module_file exists_ listdir tplpath = Raise e \/
      exists templates,
        locate_templates module_file exists_ listdir tplpath = Ok templates /\
        (readtxt (pfx +:+ "_head.ijm") templates = Raise e \/
         exists head,
           readtxt (pfx +:+ "_head.ijm") templates = Ok head /\
           ((mosaics experiment = [] /\ e = IndexError) \/
            (mosaics experiment <> [] /\
             readtxt (pfx +:+ "_body.ijm") templates = Raise e)))
  end.
Proof.
  rewrite gen_stitching_macro_code_eq.
  destruct (locate_templates module_file exists_ listdir tplpath)
    as [templates | e]; [| left; reflexivity].
  cbn [rbind].
  destruct (readtxt (pfx +:+ "_head.ijm") templates) as [head | e] eqn:Hhead;
    [| right; exists templates; split; [reflexivity | left; exact Hhead]].
  cbn [rbind].
  destruct (mosaics experiment) as [|mosaic0 rest] eqn:Hexp; cbn [first_item rbind].
  - right. exists templates. split; [reflexivity |]. right.
    exists head. split; [exact Hhead |]. left. split; reflexivity.
  - destruct (readtxt (pfx +:+ "_body.ijm") templates) as [body | e] eqn:Hbody;
      cbn [rbind].
    + exists templates, head, mosaic0, rest, body.
      repeat split; try assumption; reflexivity.
    + right. exists templates. split; [reflexivity |]. right.
      exists head. split; [exact Hhead |]. right.
      split; [discriminate | exact Hbody].
Qed.

(** X14. The macro tells the input path: two calls that differ in the
    input path only cannot return the same macro, since doubling the
    backslashes loses nothing. *)
Theorem gen_stitching_macro_code_path_distinct (experiment : MosaicExperiment)
    (pfx path1 path2 tplpath : string) (opts : list (string * string))
    (ijm : list string) :
  path1 <> path2 ->
  gen_stitching_macro_code version module_file exists_ listdir readtxt
    experiment pfx path1 tplpath opts = Ok ijm ->
  gen_stitching_macro_code version module_file exists_ listdir readtxt
    experiment pfx path2 tplpath opts <> Ok ijm.
Proof.
  intros Hne H1 H2. apply Hne.
  rewrite gen_stitching_macro_code_eq in H1, H2.
  destruct (locate_templates module_file exists_ listdir tplpath)
    as [templates | e]; [| discriminate H1].
  cbn [rbind] in H1, H2.
  destruct (readtxt (pfx +:+ "_head.ijm") templates) as [head | e];
    [| discriminate H1].
  cbn [rbind] in H1, H2.
  destruct (first_item (mosaics experiment)) as [mosaic0 | e];
    [| discriminate H1].
  cbn [rbind] in H1, H2.
  destruct (readtxt (pfx +:+ "_body.ijm") templates) as [body | e];
    [| discriminate H1].
  cbn [rbind] in H1, H2. rewrite <- H2 in H1. injection H1 as H.
  apply List.app_inv_tail in H. unfold macro_before in H.
  change ([macro_header version; begin_head] ++ head ++ ?l)
    with (([macro_header version; begin_head] ++ head) ++ l) in H.
  apply List.app_inv_head in H.
  cbn [app] in H. injection H as H.
  apply app_inv_tail_s in H. exact (replace_double_inj backslash _ _ H).
Qed.

End MacroMore.

(** ** The padding length is a number of digits *)

Lemma len_string_of_uint (d : Decimal.uint) :
  len (NilEmpty.string_of_uint d) = Decimal.nb_digits d.
Proof.
  unfold len. induction d; simpl; [reflexivity | now rewrite IHd ..].
Qed.

Lemma usize_N_nb_digits (d : Decimal.uint) :
  DecimalPos.Unsigned.usize d = N.of_nat (Decimal.nb_digits d).
Proof.
  induction d; [reflexivity | ..];
    cbn [DecimalPos.Unsigned.usize Decimal.nb_digits];
    rewrite IHd; lia.
Qed.

Lemma of_lu_lt (d : Decimal.uint) :
  DecimalNat.Unsigned.of_lu d < 10 ^ Decimal.nb_digits d.
Proof.
  induction d; cbn [DecimalNat.Unsigned.of_lu Decimal.nb_digits];
    rewrite ?Nat.pow_succ_r'; [cbn; lia | lia ..].
Qed.

Lemma unorm_fix_leading (d : Decimal.uint) :
  Decimal.unorm d = d -> d <> Decimal.zero -> leading_nonzero d.
Proof.
  destruct d; cbn [leading_nonzero]; try (intros; exact I).
  - discriminate.
  - rewrite DecimalFacts.unorm_D0. intros H Hz.
    destruct d; [elim Hz; reflexivity | ..];
      match goal with
      | H : Decimal.unorm ?u = _ |- _ =>
          assert (u <> Decimal.Nil) as Hu by discriminate;
          pose proof (DecimalFacts.nb_digits_unorm u Hu) as Hle;
          rewrite H in Hle; cbn [Decimal.nb_digits] in Hle; lia
      end.
Qed.

Lemma nat_to_uint_leading (n : nat) : n <> 0 -> leading_nonzero (Nat.to_uint n).
Proof.
  intros Hn. apply unorm_fix_leading.
  - rewrite <- DecimalNat.Unsigned.to_of, DecimalNat.Unsigned.of_to. reflexivity.
  - intros Hz. apply Hn. rewrite <- (DecimalNat.Unsigned.of_to n), Hz. reflexivity.
Qed.

Lemma N_to_uint_leading (n : N) : n <> 0%N -> leading_nonzero (N.to_uint n).
Proof.
  intros Hn. apply unorm_fix_leading.
  - rewrite <- DecimalN.Unsigned.to_of, DecimalN.Unsigned.of_to. reflexivity.
  - intros Hz. apply Hn. rewrite <- (DecimalN.Unsigned.of_to n), Hz. reflexivity.
Qed.

(** [n] has fewer digits than a power of ten above it has zeros... *)
Lemma str_nat_upper (n : nat) : n < 10 ^ len (str_nat n).
Proof.
  unfold str_nat. rewrite len_string_of_uint.
  rewrite <- (DecimalNat.Unsigned.of_to n) at 1.
  rewrite DecimalNat.Unsigned.of_uint_alt.
  rewrite <- DecimalFacts.nb_digits_rev. apply of_lu_lt.
Qed.

(** ...and at least as many as the power of ten below it. *)
Lemma str_nat_lower (n : nat) : n <> 0 -> 10 ^ (len (str_nat n) - 1) <= n.
Proof.
  intros Hn. pose proof (nat_to_uint_leading n Hn) as Hlead.
  unfold str_nat. rewrite len_string_of_uint.
  pose proof (DecimalNat.Unsigned.of_to n) as Hval.
  revert Hval Hlead. generalize (Nat.to_uint n). intros u Hval Hlead.
  rewrite <- Hval. clear Hval Hn n.
  destruct u as [| d | d | d | d | d | d | d | d | d | d];
    cbn [leading_nonzero] in Hlead; try contradiction;
    unfold Nat.of_uint; cbn [Nat.of_uint_acc Decimal.nb_digits];
    change (Nat.tail_mul 10 0) with 0;
    rewrite DecimalNat.Unsigned.of_uint_acc_spec;
    change (DecimalNat.Unsigned.usize d) with (Decimal.nb_digits d);
    replace (S (Decimal.nb_digits d) - 1) with (Decimal.nb_digits d) by lia;
    generalize (10 ^ Decimal.nb_digits d); intros P; nia.
Qed.

Lemma str_N_lower (n : N) :
  n <> 0%N -> 10 ^ (len (str_N n) - 1) <= N.to_nat n.
Proof.
  intros Hn. pose proof (N_to_uint_leading n Hn) as Hlead.
  unfold str_N. rewrite len_string_of_uint.
  assert (forall k : nat, N.to_nat (10 ^ N.of_nat k) = 10 ^ k) as Hpow.
  { intros k. rewrite N2Nat.inj_pow, Nat2N.id. reflexivity. }
  pose proof (DecimalN.Unsigned.of_to n) as Hval.
  revert Hval Hlead. generalize (N.to_uint n). intros u Hval Hlead.
  rewrite <- Hval. clear Hval Hn n.
  destruct u as [| d | d | d | d | d | d | d | d | d | d];
    cbn [leading_nonzero] in Hlead; try contradiction;
    unfold N.of_uint; cbn [Pos.of_uint Decimal.nb_digits];
    rewrite DecimalPos.Unsigned.of_uint_acc_rev, usize_N_nb_digits,
      N2Nat.inj_add, N2Nat.inj_mul, Hpow;
    replace (S (Decimal.nb_digits d) - 1) with (Decimal.nb_digits d) by lia;
    generalize (10 ^ Decimal.nb_digits d); intros P; nia.
Qed.

Lemma str_nat_nonempty (n : nat) : 1 <= len (str_nat n).
Proof.
  destruct (Nat.eq_dec n 0) as [-> | Hn]; [cbn; lia |].
  pose proof (nat_to_uint_leading n Hn) as Hlead.
  unfold str_nat. rewrite len_string_of_uint.
  destruct (Nat.to_uint n); cbn [leading_nonzero] in Hlead; try contradiction;
    cbn [Decimal.nb_digits]; lia.
Qed.

(** A number that is not above [n] has no more digits than [n]. *)
Lemma str_N_len_le (i : N) (n : nat) :
  N.to_nat i <= n -> len (str_N i) <= len (str_nat n).
Proof.
  intros Hle. destruct (N.eq_dec i 0%N) as [-> | Hi];
    [apply (str_nat_nonempty n) |].
  pose proof (str_N_lower i Hi) as Hlow.
  pose proof (str_nat_upper n) as Hup.
  apply Nat.nlt_ge. intros Hlt.
  assert (10 ^ len (str_nat n) <= 10 ^ (len (str_N i) - 1)) as Hpow
    by (apply Nat.pow_le_mono_r; lia).
  lia.
Qed.

Section Padding.

Variable version : string.
Variable can_open : string -> bool.
Variable format_f : float -> string.

(** X15. The padding length [write_all_tile_configs] computes is the
    number of decimal digits of the number N of mosaics: N is below 10 to
    that power and, unless N is 0, not below the power before; it is never
    0, so the default of no padding is never what the batch uses. *)
Theorem padlen_of_digits (experiment : MosaicExperiment) :
  1 <= padlen_of experiment /\
  length (mosaics experiment) < 10 ^ padlen_of experiment /\
  (mosaics experiment <> [] ->
   10 ^ (padlen_of experiment - 1) <= length (mosaics experiment)).
Proof.
  unfold padlen_of. split; [apply str_nat_nonempty |].
  split; [apply str_nat_upper |].
  intros Hne. apply str_nat_lower. destruct (mosaics experiment);
    [congruence | discriminate].
Qed.

(** X16. In an experiment of N mosaics, every mosaic with an index from 0
    to N gets a file name whose index text has exactly the padding length:
    the padding computed from the count is enough for all such indices,
    and their file names have one length. *)
Theorem tile_config_fname_uniform
    (experiment : MosaicExperiment) (m : MosaicData) (outdir : string) :
  (0 <= supplement_index m <= Z.of_nat (length (mosaics experiment)))%Z ->
  exists text,
    tile_config_fname m outdir (padlen_of experiment)
      = Ok (join (target_dir outdir m) ("mosaic_" +:+ text +:+ ".txt")) /\
    len text = padlen_of experiment.
Proof.
  intros [Hlo Hhi]. exists (fmt_int true (padlen_of experiment) (supplement_index m)).
  split; [apply tile_config_fname_eq |].
  rewrite (fmt_int_zero_padded _ _ Hlo), len_app, len_repeat_char.
  assert (len (str_N (Z.to_N (supplement_index m))) <= padlen_of experiment)
    by (apply str_N_len_le; lia).
  lia.
Qed.

End Padding.

(** ** File names sort in the order of the indices *)

Lemma ascii_compare_refl (a : ascii) : Ascii.compare a a = Eq.
Proof. unfold Ascii.compare. apply N.compare_refl. Qed.

Lemma compare_app_head (a s t : string) :
  String.compare (a +:+ s) (a +:+ t) = String.compare s t.
Proof.
  induction a as [|c a IH]; simpl; [reflexivity |].
  now rewrite ascii_compare_refl.
Qed.

Lemma compare_app_tail (s t u : string) :
  len s = len t -> String.compare s t = Lt ->
  String.compare (s +:+ u) (t +:+ u) = Lt.
Proof.
  revert t. induction s as [|a s IH]; intros [|b t]; simpl; try discriminate.
  intros Hlen. destruct (Ascii.compare a b); try (intros; assumption).
  apply IH. unfold len in *. simpl in Hlen. lia.
Qed.

Lemma N_of_lu_lt (d : Decimal.uint) :
  (DecimalPos.Unsigned.of_lu d < 10 ^ N.of_nat (Decimal.nb_digits d))%N.
Proof.
  induction d; cbn [DecimalPos.Unsigned.of_lu Decimal.nb_digits];
    rewrite ?Nat2N.inj_succ, ?N.pow_succ_r'; [cbn; lia | lia ..].
Qed.

Lemma N_of_uint_lt (d : Decimal.uint) :
  (N.of_uint d < 10 ^ N.of_nat (Decimal.nb_digits d))%N.
Proof.
  unfold N.of_uint. rewrite DecimalPos.Unsigned.of_uint_alt.
  rewrite <- DecimalFacts.nb_digits_rev. apply N_of_lu_lt.
Qed.

(** The value of digits is that of the first digit, shifted, and of the
    rest. *)
Lemma N_of_uint_cons (d : Decimal.uint) :
  N.of_uint d =
    (N.of_uint (DecimalPos.Unsigned.tl d)
     + DecimalPos.Unsigned.hd d
       * 10 ^ N.of_nat (Decimal.nb_digits (DecimalPos.Unsigned.tl d)))%N.
Proof.
  destruct d; unfold N.of_uint;
    cbn [Pos.of_uint DecimalPos.Unsigned.tl DecimalPos.Unsigned.hd];
    [reflexivity | lia | ..];
    rewrite DecimalPos.Unsigned.of_uint_acc_rev, usize_N_nb_digits,
      DecimalPos.Unsigned.of_uint_alt; reflexivity.
Qed.

(** Of two texts of as many digits, the one of the smaller number comes
    first. *)
Lemma compare_digits (d1 d2 : Decimal.uint) :
  Decimal.nb_digits d1 = Decimal.nb_digits d2 ->
  (N.of_uint d1 < N.of_uint d2)%N ->
  String.compare (NilEmpty.string_of_uint d1) (NilEmpty.string_of_uint d2) = Lt.
Proof.
  revert d2. induction d1 as [| d1 IH | d1 IH | d1 IH | d1 IH | d1 IH | d1 IH
                                | d1 IH | d1 IH | d1 IH | d1 IH];
    intros [| d2 | d2 | d2 | d2 | d2 | d2 | d2 | d2 | d2 | d2] Hn Hv;
    try discriminate Hn; [cbn in Hv; lia | ..];
    cbn [Decimal.nb_digits] in Hn; injection Hn as Hn;
    match type of Hv with
    | (N.of_uint ?a < N.of_uint ?b)%N =>
        rewrite (N_of_uint_cons a), (N_of_uint_cons b) in Hv
    end;
    cbn [DecimalPos.Unsigned.tl DecimalPos.Unsigned.hd] in Hv;
    rewrite Hn in Hv;
    pose proof (N_of_uint_lt d1) as B1; pose proof (N_of_uint_lt d2) as B2;
    rewrite Hn in B1;
    cbn [NilEmpty.string_of_uint String.compare];
    match goal with
    | |- context [Ascii.compare ?a ?b] =>
        let r := eval vm_compute in (Ascii.compare a b) in
        change (Ascii.compare a b) with r
    end;
    cbv iota;
    first [reflexivity | apply IH; [exact Hn | lia] | exfalso; lia].
Qed.

Lemma string_of_uint_zeros (k : nat) (d : Decimal.uint) :
  repeat_char "0" k +:+ NilEmpty.string_of_uint d
    = NilEmpty.string_of_uint (Nat.iter k Decimal.D0 d).
Proof.
  unfold repeat_char. induction k as [|k IH]; simpl; [reflexivity |].
  unfold repeat_char in IH. now rewrite IH.
Qed.

Lemma nb_digits_zeros (k : nat) (d : Decimal.uint) :
  Decimal.nb_digits (Nat.iter k Decimal.D0 d) = k + Decimal.nb_digits d.
Proof. induction k as [|k IH]; simpl; [reflexivity | now rewrite IH]. Qed.

(** Two indices padded to one width: the texts compare as the indices. *)
Lemma compare_fmt_int (w : nat) (i j : Z) :
  (0 <= i < j)%Z ->
  len (str_N (Z.to_N j)) <= w ->
  String.compare (fmt_int true w i) (fmt_int true w j) = Lt.
Proof.
  intros [Hi Hij] Hw.
  assert (len (str_N (Z.to_N i)) <= len (str_N (Z.to_N j))) as Hlen.
  { destruct (N.eq_dec (Z.to_N i) 0%N) as [-> | Hnz].
    - pose proof (N_to_uint_leading (Z.to_N j) ltac:(lia)) as Hlead.
      unfold str_N at 2. rewrite len_string_of_uint.
      destruct (N.to_uint (Z.to_N j)); cbn [leading_nonzero] in Hlead;
        try contradiction; cbn; lia.
    - rewrite <- (Nat2N.id (len (str_N (Z.to_N j)))).
      pose proof (str_N_lower (Z.to_N i) Hnz) as Hlow.
      pose proof (N_of_uint_lt (N.to_uint (Z.to_N j))) as Hup.
      rewrite DecimalN.Unsigned.of_to, <- len_string_of_uint in Hup.
      fold (str_N (Z.to_N j)) in Hup. rewrite Nat2N.id.
      apply Nat.nlt_ge. intros Hlt.
      assert (10 ^ len (str_N (Z.to_N j)) <= 10 ^ (len (str_N (Z.to_N i)) - 1))
        as Hpow by (apply Nat.pow_le_mono_r; lia).
      assert (N.to_nat (10 ^ N.of_nat (len (str_N (Z.to_N j))))
              = 10 ^ len (str_N (Z.to_N j))) as Hconv
        by (rewrite N2Nat.inj_pow, Nat2N.id; reflexivity).
      lia. }
  rewrite (fmt_int_zero_padded w i Hi), (fmt_int_zero_padded w j ltac:(lia)).
  unfold str_N in *. rewrite !string_of_uint_zeros.
  rewrite !len_string_of_uint in *.
  apply compare_digits.
  - rewrite !nb_digits_zeros. lia.
  - unfold N.of_uint in *. fold N.of_uint.
    rewrite !of_uint_zeros, !DecimalN.Unsigned.of_to. lia.
Qed.

Section SortedNames.

Variable version : string.
Variable can_open : string -> bool.
Variable format_f : float -> string.

(** X17. In an experiment of N mosaics written to one directory, the file
    names of two mosaics with indices from 0 to N come in the byte-wise
    order of strings as the indices come in the order of numbers: sorting
    the names sorts the mosaics. *)
Theorem tile_config_fname_sorted
    (experiment : MosaicExperiment) (m1 m2 : MosaicData) (outdir : string) :
  target_dir outdir m1 = target_dir outdir m2 ->
  (0 <= supplement_index m1 < supplement_index m2)%Z ->
  (supplement_index m2 <= Z.of_nat (length (mosaics experiment)))%Z ->
  exists name1 name2,
    tile_config_fname m1 outdir (padlen_of experiment) = Ok name1 /\
    tile_config_fname m2 outdir (padlen_of experiment) = Ok name2 /\
    String.ltb name1 name2 = true.
Proof.
  intros Hdir Hidx Hmax.
  exists (tile_config_name (padlen_of experiment) outdir m1),
         (tile_config_name (padlen_of experiment) outdir m2).
  split; [apply tile_config_fname_eq |]. split; [apply tile_config_fname_eq |].
  unfold tile_config_name. fold (target_dir outdir m1) (target_dir outdir m2).
  rewrite <- Hdir. set (d := target_dir outdir m1). unfold join.
  change (startswith ("mosaic_" +:+ ?x) "/") with false. cbv iota.
  assert (String.compare
            ("mosaic_" +:+ fmt_int true (padlen_of experiment) (supplement_index m1)
               +:+ ".txt")
            ("mosaic_" +:+ fmt_int true (padlen_of experiment) (supplement_index m2)
               +:+ ".txt") = Lt) as Hlt.
  { rewrite compare_app_head. apply compare_app_tail.
    - rewrite !fmt_int_zero_padded, !len_app, !len_repeat_char by lia.
      assert (len (str_N (Z.to_N (supplement_index m1))) <= padlen_of experiment)
        by (apply str_N_len_le; lia).
      assert (len (str_N (Z.to_N (supplement_index m2))) <= padlen_of experiment)
        by (apply str_N_len_le; lia).
      lia.
    - apply compare_fmt_int; [exact Hidx | apply str_N_len_le; lia]. }
  unfold String.ltb.
  destruct ((len d =? 0)%nat || endswith d "/").
  - rewrite (compare_app_head d). now rewrite Hlt.
  - rewrite (compare_app_head d), (compare_app_head "/"). now rewrite Hlt.
Qed.

End SortedNames.

(** ** The further properties at the sample data *)

(** X2 at the flat sample mosaic: four lines and two coordinate lines. *)
Lemma gen_tile_config_shape_witness :
  exists conf,
    gen_tile_config Sample.version render_f Sample.flat = Ok conf /\
    length conf = 4 + length (subvol Sample.flat) /\
    Forall (fun line => endswith line nl = true) conf.
Proof.
  destruct (gen_tile_config Sample.version render_f Sample.flat)
    as [conf | e] eqn:E.
  - exists conf. split; [reflexivity |].
    exact (gen_tile_config_shape Sample.version render_f Sample.flat conf E).
  - vm_compute in E. discriminate E.
Defined.

(** X3 at a tile stored in a sub-directory of the flat sample mosaic. *)
Lemma tile_line_strips_storage_path_witness :
  tile_line render_f Sample.flat
    (coord_format (Sample.tile 1 [0; 0]%float "/data/exp/sub\t0.oib"))
    (Sample.tile 1 [0; 0]%float "/data/exp/sub\t0.oib") =
  Ok (coordinate_line "sub/t0.oib"
        (coord_texts render_f
           (Sample.tile 1 [0; 0]%float "/data/exp/sub\t0.oib")
           (Sample.tile 1 [0; 0]%float "/data/exp/sub\t0.oib"))).
Proof.
  exact (tile_line_strips_storage_path render_f Sample.flat
           (Sample.tile 1 [0; 0]%float "/data/exp/sub\t0.oib")
           (Sample.tile 1 [0; 0]%float "/data/exp/sub\t0.oib")
           "sub\t0.oib" eq_refl eq_refl).
Defined.

(** X4 at the sample mosaic of index 1, padded to three digits. *)
Lemma tile_config_fname_zero_padded_witness :
  exists text,
    tile_config_fname Sample.stack "out" 3
      = Ok (join (target_dir "out" Sample.stack)
              ("mosaic_" +:+ text +:+ ".txt")) /\
    text = "001" /\
    len text = 3 /\
    read_int text = Some 1%Z.
Proof.
  exact (tile_config_fname_zero_padded Sample.stack "out" 3
           ltac:(cbn; lia)).
Defined.

(** X5 at the sample mosaics of index 0 and 1, without padding. *)
Lemma tile_config_fname_distinct_witness :
  tile_config_fname Sample.flat "out" 0
    <> tile_config_fname Sample.stack "out" 0.
Proof.
  exact (tile_config_fname_distinct Sample.flat Sample.stack "out" 0
           eq_refl ltac:(cbn; lia)).
Defined.

(** X6 at ten mosaics numbered from 0, written to one directory. *)
Lemma write_all_tile_configs_own_file_witness :
  exists w',
    write_all_tile_configs Sample.version (fun _ => true) render_f
      (Sample.numbered 10) "out" (Sample.disk 4000) = (w', Ok tt) /\
    forall m, In m (mosaics (Sample.numbered 10)) ->
      files w' !! tile_config_name (padlen_of (Sample.numbered 10)) "out" m
        = Some (config_text Sample.version render_f m).
Proof.
  apply (write_all_tile_configs_own_file Sample.version (fun _ => true)
           render_f (Sample.numbered 10) "out" (Sample.disk 4000)).
  - intros m1 m2 _ _. reflexivity.
  - change (map supplement_index (mosaics (Sample.numbered 10)))
      with (map Z.of_nat (seq 0 10)).
    apply (NoDup_fmap_2 Z.of_nat), NoDup_seq.
  - vm_compute. reflexivity.
  - apply Nat.leb_le. vm_compute. reflexivity.
Defined.

(** X7 at the sample mosaic whose configuration cannot be generated. *)
Lemma write_tile_config_untouched_witness :
  write_tile_config Sample.version (fun _ => true) render_f Sample.flat_xyz
    "out" 2 (Sample.disk 100) = (Sample.disk 100, Raise TypeError).
Proof.
  exact (write_tile_config_untouched Sample.version (fun _ => true) render_f
           Sample.flat_xyz "out" 2 (Sample.disk 100)
           ltac:(vm_compute; reflexivity)).
Defined.


(** X11 at the sample plugin directory. *)
Lemma locate_templates_result_exists_witness :
  Sample.exists_ "/plugins/foo-1.2.0.jar" = true.
Proof.
  exact (locate_templates_result_exists Sample.module_file Sample.exists_
           Sample.listdir "/plugins/foo.jar" "/plugins/foo-1.2.0.jar"
           ltac:(vm_compute; reflexivity)).
Defined.

(** X12 at the sample plugin directory, the suffix in capitals. *)
Lemma locate_templates_jar_outcome_witness :
  exists entries best,
    Sample.listdir (dirname "/plugins/foo.JAR") = Ok entries /\
    In best (jar_candidates "/plugins/foo.JAR" entries) /\
    (forall c, In c (jar_candidates "/plugins/foo.JAR" entries) ->
       String.leb c best = true) /\
    "/plugins/foo-1.2.0.jar" = join (dirname "/plugins/foo.JAR") best /\
    Sample.exists_ "/plugins/foo-1.2.0.jar" = true.
Proof.
  exact (locate_templates_jar_outcome Sample.module_file Sample.exists_
           Sample.listdir "/plugins/foo.JAR" eq_refl).
Defined.

(** X14 at two paths that differ in one separator. *)
Lemma gen_stitching_macro_code_path_distinct_witness :
  exists ijm,
    gen_stitching_macro_code Sample.version Sample.module_file Sample.exists_
      Sample.listdir Sample.readtxt (Sample.experiment [Sample.stack])
      "stitch" "C:\data" "/tpl" [] = Ok ijm /\
    gen_stitching_macro_code Sample.version Sample.module_file Sample.exists_
      Sample.listdir Sample.readtxt (Sample.experiment [Sample.stack])
      "stitch" "C:/data" "/tpl" [] <> Ok ijm.
Proof.
  destruct (gen_stitching_macro_code Sample.version Sample.module_file
              Sample.exists_ Sample.listdir Sample.readtxt
              (Sample.experiment [Sample.stack]) "stitch" "C:\data" "/tpl" [])
    as [ijm | e] eqn:E.
  - exists ijm. split; [reflexivity |].
    apply (gen_stitching_macro_code_path_distinct Sample.version
             Sample.module_file Sample.exists_ Sample.listdir Sample.readtxt
             (Sample.experiment [Sample.stack]) "stitch" "C:\data" "C:/data"
             "/tpl" [] ijm); [discriminate | exact E].
  - vm_compute in E. discriminate E.
Defined.

(** X15 at twelve mosaics: two digits. *)
Lemma padlen_of_digits_witness :
  1 <= padlen_of (Sample.numbered 12) /\
  length (mosaics (Sample.numbered 12)) < 10 ^ padlen_of (Sample.numbered 12) /\
  10 ^ (padlen_of (Sample.numbered 12) - 1)
    <= length (mosaics (Sample.numbered 12)).
Proof.
  destruct (padlen_of_digits (Sample.numbered 12)) as (H1 & H2 & H3).
  split; [exact H1 |]. split; [exact H2 |]. apply H3. discriminate.
Defined.

(** X16 at the sample mosaic of index 1 in an experiment of ten. *)
Lemma tile_config_fname_uniform_witness :
  exists text,
    tile_config_fname Sample.stack "out" (padlen_of (Sample.numbered 10))
      = Ok (join (target_dir "out" Sample.stack)
              ("mosaic_" +:+ text +:+ ".txt")) /\
    len text = padlen_of (Sample.numbered 10).
Proof.
  exact (tile_config_fname_uniform (Sample.numbered 10) Sample.stack "out"
           ltac:(cbn; lia)).
Defined.

(** X17 at the sample mosaics of index 0 and 1 in an experiment of ten. *)
Lemma tile_config_fname_sorted_witness :
  exists name1 name2,
    tile_config_fname Sample.flat "out" (padlen_of (Sample.numbered 10))
      = Ok name1 /\
    tile_config_fname Sample.stack "out" (padlen_of (Sample.numbered 10))
      = Ok name2 /\
    String.ltb name1 name2 = true.
Proof.
  exact (tile_config_fname_sorted (Sample.numbered 10) Sample.flat
           Sample.stack "out" eq_refl ltac:(cbn; lia) ltac:(cbn; lia)).
Defined.
